(** * Samsung forensic analysis tool: extraction and correlation engine

    A shallow embedding of [src/Samsung/main.py]: the value sanitizer of
    [ForensicDatabase.query], the per-category analyzers with their
    candidate queries, the load worker, the dataset store, the timeline
    and the export.

    Conventions of the embedding.
    - Python [str] is a Rocq [string] holding the text's UTF-8 bytes (a
      lone surrogate, the only thing [str.encode] rejects, shows up as an
      ill-formed sequence); [bytes] is [list byte]; [int] is [Z]; [float]
      is the rational it denotes (no rounding is modelled).
    - A [dict] is an insertion-ordered association list with unique keys.
    - The SQLite engine, [str.lower], [str.title], [datetime.fromtimestamp],
      [datetime.fromisoformat] and the GUI toolkit are outside the
      program: the engine is a record of outcomes per statement, the
      others are parameters of the functions that call them. *)

From Stdlib Require Import List Bool Arith ZArith NArith QArith Qround Lia.
From Stdlib Require Import Strings.String Strings.Ascii Strings.Byte.
From Stdlib Require Import Numbers.DecimalString Numbers.DecimalNat.
From Stdlib Require Import Sorting.Sorted Sorting.Permutation.
Import ListNotations.

Local Open Scope list_scope.
Local Open Scope string_scope.

(** ** Python text helpers *)

Module PyStr.

(** [s[:n]] *)
Fixpoint take (n : nat) (s : string) : string :=
  match n, s with
  | S n', String c s' => String c (take n' s')
  | _, _ => EmptyString
  end.

(** [Py_TOLOWER]: the letters A-Z move to a-z, every other byte stays. *)
Definition lower_char (c : ascii) : ascii :=
  let n := nat_of_ascii c in
  if (65 <=? n)%nat && (n <=? 90)%nat then ascii_of_nat (n + 32) else c.

(** Byte-wise [Py_TOLOWER], as the row type folds column names. *)
Fixpoint ascii_lower (s : string) : string :=
  match s with
  | EmptyString => EmptyString
  | String c s' => String (lower_char c) (ascii_lower s')
  end.

Definition is_byte (n : nat) (c : ascii) : bool := (nat_of_ascii c =? n)%nat.

(** A reference [str.lower], to run the model on concrete names. The
    letters A-Z are lowered, and so are the two characters outside ASCII
    whose lower case holds an ASCII letter: U+212A KELVIN SIGN (bytes
    E2 84 AA) becomes [k], and U+0130 (bytes C4 B0) becomes [i] followed
    by U+0307 (bytes CC 87). Other characters stay as they are: exact
    on text with no other upper-case letter. *)
Fixpoint str_lower (s : string) : string :=
  match s with
  | EmptyString => EmptyString
  | String c1 r1 =>
      match r1 with
      | EmptyString => String (lower_char c1) EmptyString
      | String c2 r2 =>
          if is_byte 196 c1 && is_byte 176 c2
          then String "i" (String (ascii_of_nat 204) (String (ascii_of_nat 135)
                 (str_lower r2)))
          else
            match r2 with
            | EmptyString => String (lower_char c1) (str_lower r1)
            | String c3 r3 =>
                if is_byte 226 c1 && is_byte 132 c2 && is_byte 170 c3
                then String "k" (str_lower r3)
                else String (lower_char c1) (str_lower r1)
            end
      end
  end.

(** [needle in s] *)
Fixpoint contains (needle s : string) : bool :=
  prefix needle s ||
  match s with
  | EmptyString => false
  | String _ s' => contains needle s'
  end.

(** [s.replace(c, '')] for a one-character [c] *)
Fixpoint remove_char (c : ascii) (s : string) : string :=
  match s with
  | EmptyString => EmptyString
  | String d s' =>
      if Ascii.eqb c d then remove_char c s' else String d (remove_char c s')
  end.

(** [any(k in s for k in ks)] *)
Definition contains_any (ks : list string) (s : string) : bool :=
  existsb (fun k => contains k s) ks.

(** decimal rendering of a length, as an f-string prints an [int] *)
Definition of_nat (n : nat) : string :=
  NilEmpty.string_of_uint (Nat.to_uint n).

(** reading it back *)
Definition to_nat (s : string) : option nat :=
  option_map Nat.of_uint (NilEmpty.uint_of_string s).

Definition is_hex_char (c : ascii) : bool :=
  let n := nat_of_ascii c in
  ((48 <=? n)%nat && (n <=? 57)%nat) || ((97 <=? n)%nat && (n <=? 102)%nat).

Fixpoint all_chars (p : ascii -> bool) (s : string) : bool :=
  match s with
  | EmptyString => true
  | String c s' => p c && all_chars p s'
  end.

(** [PyUnicode_IS_ASCII] *)
Definition is_ascii (s : string) : bool :=
  all_chars (fun c => (nat_of_ascii c <? 128)%nat) s.

End PyStr.

(** ** UTF-8 well-formedness, as the strict codec checks it *)

Module Utf8.

Definition between (lo hi : N) (b : byte) : bool :=
  let n := Byte.to_N b in (lo <=? n)%N && (n <=? hi)%N.

Definition cont : byte -> bool := between 128 191.

(** Well-formed byte sequences (Unicode table 3-7): no overlong forms,
    no surrogates, nothing above U+10FFFF. *)
Fixpoint valid (bs : list byte) : bool :=
  match bs with
  | [] => true
  | b0 :: r0 =>
      if between 0 127 b0 then valid r0
      else
        match r0 with
        | [] => false
        | b1 :: r1 =>
            if between 194 223 b0 then cont b1 && valid r1
            else
              match r1 with
              | [] => false
              | b2 :: r2 =>
                  if between 224 224 b0
                  then between 160 191 b1 && cont b2 && valid r2
                  else if between 225 236 b0 || between 238 239 b0
                  then cont b1 && cont b2 && valid r2
                  else if between 237 237 b0
                  then between 128 159 b1 && cont b2 && valid r2
                  else
                    match r2 with
                    | [] => false
                    | b3 :: r3 =>
                        if between 240 240 b0
                        then between 144 191 b1 && cont b2 && cont b3 && valid r3
                        else if between 241 243 b0
                        then cont b1 && cont b2 && cont b3 && valid r3
                        else if between 244 244 b0
                        then between 128 143 b1 && cont b2 && cont b3 && valid r3
                        else false
                    end
              end
        end
  end.

(** [value.decode('utf-8')]: the text, or [None] for [UnicodeDecodeError] *)
Definition decode (bs : list byte) : option string :=
  if valid bs then Some (string_of_list_byte bs) else None.

(** [value.encode('utf-8')] succeeds exactly on well-formed text *)
Definition encodable (s : string) : bool := valid (list_byte_of_string s).

End Utf8.

(** ** [bytes.hex()] *)

Definition hex_digit (n : N) : ascii :=
  ascii_of_N (if (n <? 10)%N then 48 + n else 87 + n).

Fixpoint hex (bs : list byte) : string :=
  match bs with
  | [] => EmptyString
  | b :: r =>
      let n := Byte.to_N b in
      String (hex_digit (n / 16)) (String (hex_digit (n mod 16)) (hex r))
  end.

(** ** Cell values *)

(** What the store hands back for a cell: NULL, INTEGER, REAL, TEXT, BLOB. *)
Inductive sqlval : Type :=
| SNull
| SInt (z : Z)
| SReal (q : Q)
| SText (s : string)
| SBlob (bs : list byte).

(** What a sanitized record holds: [None], [int], [float], [str]. *)
Inductive pyval : Type :=
| PNone
| PInt (z : Z)
| PFloat (q : Q)
| PStr (s : string).

(** The body of the cell loop of [ForensicDatabase.query] (lines 62-82). *)
Definition sanitize (value : sqlval) : pyval :=
  match value with
  | SBlob bs =>
      match Utf8.decode bs with
      | Some text => PStr text
      | None =>
          if (100 <? List.length bs)%nat
          then PStr ("<Binary data: " ++ PyStr.of_nat (List.length bs) ++ " bytes>")
          else PStr ("<Hex: " ++ PyStr.take 50 (hex bs)
                       ++ (if (50 <? String.length (hex bs))%nat then "..." else "")
                       ++ ">")
      end
  | SText s =>
      if Utf8.encodable s then PStr s else PStr "<Encoding error in text data>"
  | SNull => PNone
  | SInt z => PInt z
  | SReal q => PFloat q
  end.

(** ** Dictionaries: insertion-ordered, one entry per key *)

Module Dict.
Section Dict.
Context {V : Type}.

Definition t : Type := list (string * V).

Definition empty : t := [].

(** [d.get(k)] *)
Fixpoint get (k : string) (d : t) : option V :=
  match d with
  | [] => None
  | (k', v) :: r => if String.eqb k k' then Some v else get k r
  end.

(** [k in d] *)
Definition mem (k : string) (d : t) : bool :=
  match get k d with Some _ => true | None => false end.

(** [d[k] = v]: an existing key keeps its place, a new one goes last *)
Fixpoint set (k : string) (v : V) (d : t) : t :=
  match d with
  | [] => [(k, v)]
  | (k', v') :: r =>
      if String.eqb k k' then (k, v) :: r else (k', v') :: set k v r
  end.

Definition keys (d : t) : list string := map fst d.
Definition items (d : t) : list (string * V) := d.
End Dict.
Arguments t : clear implicits.
End Dict.

(** A sanitized record ([row_dict]). *)
Definition record : Type := Dict.t pyval.

(** ** The store *)

(** A fetched row ([sqlite3.Row]): the columns in result order. *)
Definition row : Type := list (string * sqlval).

Definition row_keys (r : row) : list string := map fst r.

(** How the row type compares a key with a column name (CPython 3.8 and
    later): they are equal, or both are pure ASCII and equal once
    lower-cased byte by byte. *)
Definition equal_ignore_case (left right : string) : bool :=
  String.eqb left right
  || (PyStr.is_ascii left && PyStr.is_ascii right
      && String.eqb (PyStr.ascii_lower left) (PyStr.ascii_lower right)).

(** [row[key]]: the cell of the first column whose name compares equal. *)
Fixpoint row_get (key : string) (r : row) : option sqlval :=
  match r with
  | [] => None
  | (k, v) :: r' =>
      if equal_ignore_case key k then Some v
      else row_get key r'
  end.

(** Exceptions, by what the handlers distinguish: [sqlite3.Error] and its
    subclasses, and every other [Exception]. *)
Inductive exn : Type :=
| StoreError (msg : string)
| OtherError (msg : string).

Definition exn_message (e : exn) : string :=
  match e with StoreError m => m | OtherError m => m end.

Inductive result (A : Type) : Type :=
| Ok (a : A)
| Raise (e : exn).
Arguments Ok {A} a.
Arguments Raise {A} e.

(** One database file as the engine sees it: whether [sqlite3.connect]
    goes through, what each statement yields, and what the catalogue
    query of [get_tables] yields (its rows are single text cells, so the
    names are kept directly). *)
Record database : Type := {
  connect_outcome : result unit;
  execute : string -> result (list row);
  table_names : result (list string)
}.

(** [self.connection]: [None], an open connection, or a closed one. *)
Inductive handle : Type := NoConnection | Opened | Closed.

(** An analyzer instance together with the statements it has run. *)
Record session : Type := {
  connection : handle;
  executed : list string
}.

Definition new_session : session :=
  {| connection := NoConnection; executed := [] |}.

Definition with_connection (h : handle) (s : session) : session :=
  {| connection := h; executed := executed s |}.

Definition ran (sql : string) (s : session) : session :=
  {| connection := connection s; executed := (executed s ++ [sql])%list |}.

(** Computations of an analyzer: they may raise and they change the session. *)
Definition M (A : Type) : Type := session -> result A * session.

Definition ret {A} (a : A) : M A := fun s => (Ok a, s).

Definition bind {A B} (m : M A) (k : A -> M B) : M B :=
  fun s =>
    match m s with
    | (Ok a, s') => k a s'
    | (Raise e, s') => (Raise e, s')
    end.

Notation "x <- m ;; k" := (bind m (fun x => k))
  (at level 100, m at next level, right associativity).

(** [try: m  except: h] with a bare [except] *)
Definition try_except {A} (m : M A) (h : M A) : M A :=
  fun s =>
    match m s with
    | (Ok a, s') => (Ok a, s')
    | (Raise _, s') => h s'
    end.

(** Truth value of a list. *)
Definition nonempty {A} (l : list A) : bool :=
  match l with [] => false | _ :: _ => true end.

(** ** ForensicDatabase *)

Module ForensicDatabase.

(** [connect] (lines 27-35) *)
Definition connect (db : database) : M bool :=
  fun s =>
    match connect_outcome db with
    | Ok _ => (Ok true, with_connection Opened s)
    | Raise (StoreError _) => (Ok false, s)
    | Raise e => (Raise e, s)
    end.

(** [disconnect] (lines 37-40) *)
Definition disconnect : M unit :=
  fun s =>
    match connection s with
    | NoConnection => (Ok tt, s)
    | _ => (Ok tt, with_connection Closed s)
    end.

Definition catalogue_sql : string :=
  "SELECT name FROM sqlite_master WHERE type='table';".

(** [get_tables] (lines 42-48): nothing is caught here; a cursor on a
    closed connection is a [sqlite3.ProgrammingError]. *)
Definition get_tables (db : database) : M (list string) :=
  fun s =>
    match connection s with
    | NoConnection => (Ok [], s)
    | Closed => (Raise (StoreError "Cannot operate on a closed database."), s)
    | Opened =>
        match table_names db with
        | Ok names => (Ok names, ran catalogue_sql s)
        | Raise e => (Raise e, ran catalogue_sql s)
        end
    end.

(** The inner loop of [query] over the keys of one row (lines 60-84).
    [row_get] cannot miss: each key is one of the row's own. *)
Definition row_dict (r : row) : record :=
  fold_left
    (fun d key =>
       match row_get key r with
       | Some value => Dict.set key (sanitize value) d
       | None => d
       end)
    (row_keys r) Dict.empty.

(** [query] (lines 50-89): only [sqlite3.Error] is caught. *)
Definition query (db : database) (sql : string) : M (list record) :=
  fun s =>
    match connection s with
    | NoConnection => (Ok [], s)
    | Closed => (Ok [], s)
    | Opened =>
        match execute db sql with
        | Ok rows => (Ok (map row_dict rows), ran sql s)
        | Raise (StoreError _) => (Ok [], ran sql s)
        | Raise e => (Raise e, ran sql s)
        end
    end.

End ForensicDatabase.

(** The loop shared by the fallback lists (lines 157-165, 234-240,
    331-339). The [try] covers the statement and the test of its result:
    [Some results] is the [return], [None] falls through to the next
    candidate, as does [except: continue]. [otherwise] is what follows
    the loop. *)
Fixpoint first_nonempty (db : database) (queries : list string)
    (otherwise : M (list record)) : M (list record) :=
  match queries with
  | [] => otherwise
  | q :: rest =>
      returned <-
        try_except
          (results <- ForensicDatabase.query db q ;;
           ret (if nonempty results then Some results else None))
          (ret None) ;;
      match returned with
      | Some results => ret results
      | None => first_nonempty db rest otherwise
      end
  end.

(** ** The analyzers

    The statements are the source's, character for character. *)

Module ContactsAnalyzer.

Definition contacts_sql : string :=
  "
        SELECT 
            raw_contacts._id AS contact_id,
            name_data.data1 AS name,
            phone_data.data1 AS phone_number
        FROM raw_contacts
        LEFT JOIN data AS name_data 
            ON name_data.raw_contact_id = raw_contacts._id 
            AND name_data.mimetype_id = (SELECT _id FROM mimetypes WHERE mimetype = 'vnd.android.cursor.item/name')
        LEFT JOIN data AS phone_data 
            ON phone_data.raw_contact_id = raw_contacts._id 
            AND phone_data.mimetype_id = (SELECT _id FROM mimetypes WHERE mimetype = 'vnd.android.cursor.item/phone_v2')
        ORDER BY name_data.data1
        ".

Definition fallback_queries : list string :=
  [ "
            SELECT 
                raw_contacts._id AS contact_id,
                name_data.data1 AS name,
                phone_data.data1 AS phone_number
            FROM raw_contacts
            LEFT JOIN data AS name_data 
                ON name_data.raw_contact_id = raw_contacts._id 
                AND name_data.mimetype_id = (SELECT _id FROM mimetypes WHERE mimetype LIKE '%name%')
            LEFT JOIN data AS phone_data 
                ON phone_data.raw_contact_id = raw_contacts._id 
                AND phone_data.mimetype_id = (SELECT _id FROM mimetypes WHERE mimetype LIKE '%phone%')
            ORDER BY name_data.data1
            LIMIT 1000
            ";
    "
            SELECT 
                _id AS contact_id,
                display_name AS name,
                '' AS phone_number
            FROM raw_contacts
            WHERE display_name IS NOT NULL
            ORDER BY display_name
            LIMIT 1000
            ";
    "
            SELECT 
                raw_contact_id AS contact_id,
                data1 AS name,
                data2 AS phone_number
            FROM data
            WHERE mimetype_id IN (SELECT _id FROM mimetypes WHERE mimetype LIKE '%name%' OR mimetype LIKE '%phone%')
            ORDER BY data1
            LIMIT 1000
            " ].

(** [get_contacts] (lines 94-165): the main statement runs outside any
    [try]. *)
Definition get_contacts (db : database) : M (list record) :=
  results <- ForensicDatabase.query db contacts_sql ;;
  if nonempty results then ret results
  else first_nonempty db fallback_queries (ret []).

End ContactsAnalyzer.

Module CallLogAnalyzer.

Definition calls_sql : string :=
  "
        SELECT number, type, date, duration, name, 
               CASE type 
                   WHEN 1 THEN 'Incoming'
                   WHEN 2 THEN 'Outgoing'
                   WHEN 3 THEN 'Missed'
                   ELSE 'Unknown'
               END as call_type
        FROM calls 
        ORDER BY date DESC
        ".

(** [get_call_history] (lines 170-182) *)
Definition get_call_history (db : database) : M (list record) :=
  ForensicDatabase.query db calls_sql.

End CallLogAnalyzer.

Module MessagesAnalyzer.

Definition messages_sql : string :=
  "
        SELECT address, body, date, type, read,
               CASE type
                   WHEN 1 THEN 'Received'
                   WHEN 2 THEN 'Sent'
                   ELSE 'Unknown'
               END as message_type
        FROM sms 
        ORDER BY date DESC
        LIMIT 1000
        ".

(** [get_messages] (lines 187-199) *)
Definition get_messages (db : database) : M (list record) :=
  ForensicDatabase.query db messages_sql.

End MessagesAnalyzer.

Module BrowserAnalyzer.

Definition possible_queries : list string :=
  [ "
            SELECT url, title, visit_count as visits, last_visit_time as date,
                   CASE WHEN url IN (SELECT url FROM bookmarks) THEN 1 ELSE 0 END as bookmark
            FROM urls 
            WHERE url IS NOT NULL
            ORDER BY last_visit_time DESC
            LIMIT 1000
            ";
    "
            SELECT url, title, visits, date, bookmark
            FROM bookmarks 
            WHERE url IS NOT NULL
            ORDER BY date DESC
            LIMIT 1000
            ";
    "
            SELECT * FROM urls LIMIT 100
            ";
    "
            SELECT * FROM history LIMIT 100
            " ].

Definition keywords : list string := ["url"; "history"; "visit"; "bookmark"].

(** f"SELECT * FROM {table} LIMIT 50" *)
Definition table_query (table : string) : string :=
  "SELECT * FROM " ++ table ++ " LIMIT 50".

Section Lower.

(** [str.lower], the interpreter's. *)
Variable lower : string -> string.

(** [any('url' in str(key).lower() for key in results[0].keys() if results)] *)
Definition has_url_column (results : list record) : bool :=
  match results with
  | [] => false
  | first :: _ =>
      existsb (fun key => PyStr.contains "url" (lower key)) (Dict.keys first)
  end.

(** The loop over the table names (lines 244-251). *)
Fixpoint scan_tables (db : database) (tables : list string) : M (list record) :=
  match tables with
  | [] => ret []
  | table :: rest =>
      if PyStr.contains_any keywords (lower table)
      then
        returned <-
          try_except
            (results <- ForensicDatabase.query db (table_query table) ;;
             ret (if nonempty results && has_url_column results
                  then Some results else None))
            (ret None) ;;
        match returned with
        | Some results => ret results
        | None => scan_tables db rest
        end
      else scan_tables db rest
  end.

(** Lines 242-253: [get_tables] is called outside any [try]. *)
Definition discover (db : database) : M (list record) :=
  tables <- ForensicDatabase.get_tables db ;;
  scan_tables db tables.

(** [get_browsing_history] (lines 204-253) *)
Definition get_browsing_history (db : database) : M (list record) :=
  first_nonempty db possible_queries (discover db).

End Lower.

Definition downloads_sql : string :=
  "
        SELECT 
            downloads.id,
            downloads_url_chains.url,
            downloads.target_path,
            downloads.start_time,
            downloads.received_bytes,
            downloads.total_bytes,
            downloads.state,
            CASE downloads.state
                WHEN 1 THEN 'Complete'
                WHEN 2 THEN 'Cancelled'
                WHEN 3 THEN 'Interrupted'
                WHEN 4 THEN 'In Progress'
                ELSE 'Unknown'
            END as download_status
        FROM downloads
        JOIN downloads_url_chains 
            ON downloads.id = downloads_url_chains.id
        ORDER BY downloads.start_time DESC
        ".

(** [get_chrome_downloads] (lines 255-278) *)
Definition get_chrome_downloads (db : database) : M (list record) :=
  ForensicDatabase.query db downloads_sql.

Definition meta_sql : string :=
  "
        SELECT key, value
        FROM meta
        ".

(** [get_meta_data] (lines 280-286) *)
Definition get_meta_data (db : database) : M (list record) :=
  ForensicDatabase.query db meta_sql.

End BrowserAnalyzer.

Module CalendarAnalyzer.

Definition events_sql : string :=
  "
        SELECT title, description, dtstart, dtend, 
               eventLocation, allDay
        FROM Events
        ORDER BY dtstart DESC
        LIMIT 500
        ".

(** [get_events] (lines 291-299) *)
Definition get_events (db : database) : M (list record) :=
  ForensicDatabase.query db events_sql.

End CalendarAnalyzer.

Module AccountsAnalyzer.

Definition accounts_sql : string :=
  "
        SELECT 
            name, 
            type, 
            password 
        FROM accounts
        ORDER BY type, name
        ".

Definition fallback_queries : list string :=
  [ "
            SELECT * FROM accounts LIMIT 100
            ";
    "
            SELECT a.name, a.type, at.authtoken 
            FROM accounts a 
            LEFT JOIN authtokens at ON a._id = at.accounts_id
            LIMIT 100
            " ].

(** [get_accounts] (lines 304-339) *)
Definition get_accounts (db : database) : M (list record) :=
  results <- ForensicDatabase.query db accounts_sql ;;
  if nonempty results then ret results
  else first_nonempty db fallback_queries (ret []).

End AccountsAnalyzer.

(** ** ForensicApp: the load worker *)

(** [self.loaded_databases[db_name]]: the keys 'data', 'type', 'count'. *)
Record dataset : Type := {
  data : list record;
  type : string;
  count : nat
}.

(** What the worker hands to the foreground through [self.root.after]:
    the closure [update] with the resolved data, or the lambda of line
    596, written to show [text] in the status bar. *)
Inductive callback : Type :=
| Update (db_file db_name : string) (records : list record) (data_type : string)
| ErrorStatus (text : string).

(** One branch of [_load_database_thread]: connect, resolve, post. *)
Definition load_with (db : database) (db_file db_name : string)
    (resolve : M (list record)) (data_type : string) : M (list callback) :=
  connected <- ForensicDatabase.connect db ;;
  if connected
  then (data <- resolve ;; ret [Update db_file db_name data data_type])
  else ret [].

(** f"SELECT * FROM {tables[0]} LIMIT 100" *)
Definition sample_query (table : string) : string :=
  "SELECT * FROM " ++ table ++ " LIMIT 100".

(** The generic handler (lines 585-591). *)
Definition load_generic (db : database) (db_file db_name : string)
  : M (list callback) :=
  connected <- ForensicDatabase.connect db ;;
  if connected
  then
    (tables <- ForensicDatabase.get_tables db ;;
     match tables with
     | first :: _ =>
         data <- ForensicDatabase.query db (sample_query first) ;;
         ret [Update db_file db_name data "generic"]
     | [] => ret []
     end)
  else ret [].

(** The [try] block of [_load_database_thread] (lines 545-593): the
    dispatch on the catalogue name, then [analyzer.disconnect()] as its
    last statement. [lower] is [str.lower]. *)
Definition load_body (lower : string -> string) (db : database)
    (db_file db_name : string) : M (list callback) :=
  let name := lower db_file in
  posted <-
    (if PyStr.contains "contacts" name
     then load_with db db_file db_name (ContactsAnalyzer.get_contacts db) "contacts"
     else if PyStr.contains "calllog" name
     then load_with db db_file db_name (CallLogAnalyzer.get_call_history db) "calls"
     else if PyStr.contains "mmssms" name
     then load_with db db_file db_name (MessagesAnalyzer.get_messages db) "messages"
     else if PyStr.contains "browser" name || PyStr.contains "chrome" name
     then
       if PyStr.contains "downloads" name
       then load_with db db_file db_name (BrowserAnalyzer.get_chrome_downloads db) "downloads"
       else if PyStr.contains "meta" name
       then load_with db db_file db_name (BrowserAnalyzer.get_meta_data db) "meta"
       else load_with db db_file db_name
              (BrowserAnalyzer.get_browsing_history lower db) "browser"
     else if PyStr.contains "calendar" name
     then load_with db db_file db_name (CalendarAnalyzer.get_events db) "calendar"
     else if PyStr.contains "accounts" name
     then load_with db db_file db_name (AccountsAnalyzer.get_accounts db) "accounts"
     else load_generic db db_file db_name) ;;
  _ <- ForensicDatabase.disconnect ;;
  ret posted.

(** [_load_database_thread] (lines 542-596): what was posted to the
    foreground, and the analyzer as the worker leaves it. *)
Definition _load_database_thread (lower : string -> string) (db : database)
    (db_file db_name : string) : list callback * session :=
  match load_body lower db db_file db_name new_session with
  | (Ok posted, s) => (posted, s)
  | (Raise e, s) =>
      ([ErrorStatus ("Error loading " ++ db_name ++ ": " ++ exn_message e)], s)
  end.

(** ** ForensicApp: the foreground state *)

(** The state kept is the dataset store. The status bar is left out:
    whether line 618 is reached depends on the views refreshed before
    it, and the lambda of line 596 reads [e] after the [except] block
    has unbound it, so it raises [NameError] and writes nothing. *)
Record app : Type := {
  loaded_databases : Dict.t dataset
}.

Definition initial_app : app :=
  {| loaded_databases := Dict.empty |}.

(** What a callback does to the store: the closure [update] of
    [_update_ui_after_load] writes the entry (line 607) before it
    refreshes any view; the status lambda of line 596 writes nothing. *)
Definition run_callback (a : app) (c : callback) : app :=
  match c with
  | Update db_file db_name records data_type =>
      {| loaded_databases :=
           Dict.set db_name
             {| data := records; type := data_type; count := List.length records |}
             (loaded_databases a) |}
  | ErrorStatus text => a
  end.

(** The states the application can be in: the store is written by
    callbacks only. *)
Inductive reachable : app -> Prop :=
| reachable_initial : reachable initial_app
| reachable_step a c : reachable a -> reachable (run_callback a c).

(** ** Timeline *)

(** A [datetime]. A naive one (no offset) counts microseconds on the
    local clock; an aware one (with a UTC offset) counts microseconds of
    UTC. Two of the same kind compare by that count; comparing a naive
    with an aware one raises [TypeError]. *)
Record datetime : Type := {
  aware : bool;
  ticks : Z
}.

Definition naive (t : Z) : datetime := {| aware := false; ticks := t |}.

Definition event : Type := (datetime * string * string)%type.

(** The sort key [x[0]], by its count and by its kind. *)
Definition event_time (e : event) : Z := ticks (fst (fst e)).
Definition event_aware (e : event) : bool := aware (fst (fst e)).
Definition event_source (e : event) : string := snd e.

(** Truth value of a cell. *)
Definition truthy (v : pyval) : bool :=
  match v with
  | PNone => false
  | PInt z => negb (z =? 0)%Z
  | PFloat q => negb (Qeq_bool q 0)
  | PStr s => negb (String.eqb s "")
  end.

(** [list.sort(key=lambda x: x[0], reverse=True)] on keys of one kind:
    the interpreter's sort is stable, also when reversed; it is rendered
    by insertion from the right, a new element going in front of the
    first one that is not later than it. *)
Fixpoint insert_desc (e : event) (l : list event) : list event :=
  match l with
  | [] => [e]
  | x :: r =>
      if (event_time e <? event_time x)%Z then x :: insert_desc e r
      else e :: x :: r
  end.

(** The order of the timeline: [a] may stand before [b]. *)
Definition later_first (a b : event) : Prop := (event_time b <= event_time a)%Z.

(** The events stamped [t], and the events of one source. *)
Definition at_time (t : Z) (e : event) : bool := (event_time e =? t)%Z.
Definition from_source (name : string) (e : event) : bool :=
  String.eqb (event_source e) name.

Fixpoint sort_desc (l : list event) : list event :=
  match l with
  | [] => []
  | e :: r => insert_desc e (sort_desc r)
  end.

(** Keys of both kinds are present. A list with both has at least two
    elements, and no comparison sort can order it without comparing a
    naive key with an aware one. *)
Definition mixed (l : list event) : bool :=
  existsb event_aware l && existsb (fun e => negb (event_aware e)) l.

Section Timeline.

(** [datetime.fromtimestamp] on the number of seconds: the reading of
    the local clock (the result is always naive), [None] when it raises
    (out of range). *)
Variable fromtimestamp : Q -> option Z.

(** [datetime.fromisoformat]: naive, or aware when the text carries a
    UTC offset; [None] when it raises. *)
Variable fromisoformat : string -> option datetime.

(** [str] of a [float]. *)
Variable float_str : Q -> string.

(** [str(v)], as f-strings apply it. *)
Definition py_str (v : pyval) : string :=
  match v with
  | PNone => "None"
  | PInt z => NilEmpty.string_of_int (Z.to_int z)
  | PFloat q => float_str q
  | PStr s => s
  end.

(** [record.get(key, default)] inside an f-string *)
Definition get_str (key default : string) (r : record) : string :=
  match Dict.get key r with
  | Some v => py_str v
  | None => default
  end.

(** [timestamp / 1000] and the comparison with 10^12 *)
Definition exceeds_threshold (q : Q) : bool :=
  negb (Qle_bool q (inject_Z 1000000000000)).

Definition seconds_of (q : Q) : Q :=
  if exceeds_threshold q then Qred (q / inject_Z 1000) else q.

(** Lines 710-717, [None] standing for the [except: continue]. *)
Definition to_datetime (timestamp : pyval) : option datetime :=
  match timestamp with
  | PInt z => option_map naive (fromtimestamp (seconds_of (inject_Z z)))
  | PFloat q => option_map naive (fromtimestamp (seconds_of q))
  | other => fromisoformat (PyStr.remove_char "Z" (py_str other))
  end.

(** Lines 690-707: the timestamp field and the description. *)
Definition extract (data_type : string) (r : record) : option pyval * string :=
  if Dict.mem "date" r then
    (Dict.get "date" r,
     if String.eqb data_type "calls"
     then "Call: " ++ get_str "call_type" "Unknown" r ++ " - "
            ++ get_str "number" "Unknown" r
     else if String.eqb data_type "messages"
     then "SMS: " ++ get_str "message_type" "Unknown" r ++ " - "
            ++ get_str "address" "Unknown" r
     else "")
  else if Dict.mem "dtstart" r then
    (Dict.get "dtstart" r, "Calendar: " ++ get_str "title" "No title" r)
  else if Dict.mem "lastmod" r then
    (Dict.get "lastmod" r, "Download: " ++ get_str "title" "Unknown file" r)
  else if Dict.mem "start_time" r then
    (Dict.get "start_time" r,
     "Download: "
       ++ get_str "target_path" (get_str "url" "Unknown file" r) r
       ++ " (" ++ get_str "download_status" "Unknown" r ++ ")")
  else (None, "").

(** The body of the record loop (lines 689-721): the event the record
    adds to [timeline_events], if any. *)
Definition record_event (db_name data_type : string) (r : record)
  : option event :=
  match extract data_type r with
  | (Some timestamp, event_desc) =>
      if truthy timestamp
      then
        match to_datetime timestamp with
        | Some dt => Some (dt, event_desc, db_name)
        | None => None
        end
      else None
  | (None, _) => None
  end.

(** The events of one dataset: [for record in data[:100]]. *)
Definition dataset_events (db_name : string) (info : dataset) : list event :=
  flat_map
    (fun r =>
       match record_event db_name (type info) r with
       | Some e => [e]
       | None => []
       end)
    (firstn 100 (data info)).

(** Lines 682-721: [timeline_events] before the sort. *)
Definition collect_events (store : Dict.t dataset) : list event :=
  flat_map (fun item => dataset_events (fst item) (snd item)) (Dict.items store).

(** [update_timeline] (lines 678-735): the entries written to the
    timeline view, [timeline_events[:200]] after the sort. The sort of
    line 724 stands outside the [try]: with keys of both kinds it raises
    [TypeError] and nothing is written. *)
Definition update_timeline (store : Dict.t dataset) : result (list event) :=
  let timeline_events := collect_events store in
  if mixed timeline_events
  then Raise (OtherError "can't compare offset-naive and offset-aware datetimes")
  else Ok (firstn 200 (sort_desc timeline_events)).

(** The entries in the timeline view after the call: the view is
    cleared first (line 680), so it is empty when the sort raises. *)
Definition timeline_view (store : Dict.t dataset) : list event :=
  match update_timeline store with
  | Ok shown => shown
  | Raise _ => []
  end.

End Timeline.

(** ** Export *)

Record export_entry : Type := {
  record_count : nat;
  data_type : string;
  records : list record
}.

Record export_file : Type := {
  export_date : string;
  device_info : string;
  databases : Dict.t export_entry
}.

(** The entry built for one dataset (lines 758-762). *)
Definition entry_of (info : dataset) : export_entry :=
  {| record_count := count info;
     data_type := type info;
     records := firstn 500 (data info) |}.

(** The loop of lines 757-762. *)
Definition export_databases (store : Dict.t dataset) : Dict.t export_entry :=
  fold_left
    (fun acc item => Dict.set (fst item) (entry_of (snd item)) acc)
    (Dict.items store) Dict.empty.

(** [export_data] (lines 737-770): the object handed to [json.dump];
    [None] when there is nothing loaded or no file was chosen. [now] is
    [datetime.now().isoformat()]. *)
Definition export_data (a : app) (file_path now : string) : option export_file :=
  if nonempty (loaded_databases a)
  then
    if negb (String.eqb file_path "")
    then Some {| export_date := now;
                 device_info := "Samsung Galaxy S22";
                 databases := export_databases (loaded_databases a) |}
    else None
  else None.

(** ** Vocabulary of the properties *)

(** *** Row limits

    The row limit a statement carries is read off its text: the number
    after a closing [LIMIT]. A text with a comment opener in it is given
    no limit, since the engine may not see the closing words. *)

Definition is_space (c : ascii) : bool :=
  let n := nat_of_ascii c in
  (n =? 32)%nat || (n =? 10)%nat || (n =? 9)%nat || (n =? 13)%nat.

(** Whitespace-separated words; [cur] is the word being read. *)
Fixpoint words_from (cur : string) (s : string) : list string :=
  match s with
  | EmptyString => if String.eqb cur "" then [] else [cur]
  | String c s' =>
      if is_space c
      then (if String.eqb cur "" then words_from "" s' else cur :: words_from "" s')
      else words_from (cur ++ String c "") s'
  end.

Definition words (s : string) : list string := words_from "" s.

Definition comment_free (sql : string) : bool :=
  negb (PyStr.contains "--" sql || PyStr.contains "/*" sql).

Definition limit_of (sql : string) : option nat :=
  if comment_free sql
  then
    match rev (words sql) with
    | n :: kw :: _ => if String.eqb kw "LIMIT" then PyStr.to_nat n else None
    | _ => None
    end
  else None.

(** The engine returns no more rows than a statement's limit. *)
Definition honours_limits (db : database) : Prop :=
  forall sql n rows,
    limit_of sql = Some n -> execute db sql = Ok rows ->
    (List.length rows <= n)%nat.

(** The statement carries a limit of at most [N] rows. *)
Definition limited_to (N : nat) (q : string) : Prop :=
  exists n, limit_of q = Some n /\ (n <= N)%nat.

(** The engine honouring limits, checked on a listing of statements
    with their rows. *)
Definition within_limits (answers : list (string * list row)) : bool :=
  forallb
    (fun item =>
       match limit_of (fst item) with
       | Some n => (List.length (snd item) <=? n)%nat
       | None => true
       end)
    answers.

(** Every fixed statement of the analyzers, by category. *)
Definition fixed_statements : list (string * string) :=
  [ ("contacts", ContactsAnalyzer.contacts_sql) ]
  ++ map (pair "contacts") ContactsAnalyzer.fallback_queries
  ++ [ ("calls", CallLogAnalyzer.calls_sql);
       ("messages", MessagesAnalyzer.messages_sql) ]
  ++ map (pair "browser") BrowserAnalyzer.possible_queries
  ++ [ ("downloads", BrowserAnalyzer.downloads_sql);
       ("meta", BrowserAnalyzer.meta_sql);
       ("calendar", CalendarAnalyzer.events_sql);
       ("accounts", AccountsAnalyzer.accounts_sql) ]
  ++ map (pair "accounts") AccountsAnalyzer.fallback_queries.

(** *** Resolution over a candidate list, in the words of the protocol *)

Module Protocol.

(** A candidate is accepted iff its statement returns at least one row;
    a failing statement is not accepted. *)
Definition accepted (db : database) (q : string) : bool :=
  match execute db q with
  | Ok (_ :: _) => true
  | _ => false
  end.

Definition sanitized_rows (db : database) (q : string) : list record :=
  match execute db q with
  | Ok rows => map ForensicDatabase.row_dict rows
  | Raise _ => []
  end.

(** The rows of the first accepted candidate, the empty list if none. *)
Fixpoint resolve (db : database) (candidates : list string) : list record :=
  match candidates with
  | [] => []
  | q :: rest => if accepted db q then sanitized_rows db q else resolve db rest
  end.

(** The candidates that get run: up to the first accepted one, included. *)
Fixpoint attempted (db : database) (candidates : list string) : list string :=
  match candidates with
  | [] => []
  | q :: rest => q :: (if accepted db q then [] else attempted db rest)
  end.

Section Lower.

(** [str.lower], the interpreter's. *)
Variable lower : string -> string.

(** The last-resort rule as worded: the first row has a column named
    [url], case ignored. *)
Definition has_column_named_url (results : list record) : bool :=
  match results with
  | [] => false
  | first :: _ =>
      existsb (fun key => String.eqb (lower key) "url") (Dict.keys first)
  end.

(** The last-resort rule as coded, on the rows of one table. *)
Definition table_accepted (db : database) (table : string) : bool :=
  PyStr.contains_any BrowserAnalyzer.keywords (lower table)
  && accepted db (BrowserAnalyzer.table_query table)
  && BrowserAnalyzer.has_url_column lower
       (sanitized_rows db (BrowserAnalyzer.table_query table)).

(** The statements the table scan runs. *)
Fixpoint scanned (db : database) (tables : list string) : list string :=
  match tables with
  | [] => []
  | t :: rest =>
      if PyStr.contains_any BrowserAnalyzer.keywords (lower t)
      then BrowserAnalyzer.table_query t
             :: (if table_accepted db t then [] else scanned db rest)
      else scanned db rest
  end.

End Lower.

(** [s.rstrip] of one trailing [Z] *)
Fixpoint strip_trailing_Z (s : string) : string :=
  match s with
  | EmptyString => EmptyString
  | String c EmptyString => if Ascii.eqb c "Z" then EmptyString else s
  | String c s' => String c (strip_trailing_Z s')
  end.

(** Timestamp normalization as worded: a number above 10^12 is divided
    by 1000, any other number is taken as seconds, anything else is
    parsed after a trailing [Z] is dropped. *)
Definition normalize (fromtimestamp : Q -> option Z)
    (fromisoformat : string -> option datetime) (raw : pyval)
  : option datetime :=
  match raw with
  | PInt z =>
      if (1000000000000 <? z)%Z
      then option_map naive (fromtimestamp (Qred (inject_Z z / inject_Z 1000)))
      else option_map naive (fromtimestamp (inject_Z z))
  | PFloat q =>
      if Qle_bool q (inject_Z 1000000000000)
      then option_map naive (fromtimestamp q)
      else option_map naive (fromtimestamp (Qred (q / inject_Z 1000)))
  | PStr s => fromisoformat (strip_trailing_Z s)
  | PNone => fromisoformat (strip_trailing_Z "None")
  end.

End Protocol.

(** What the timeline loop does with a raw timestamp: the guard of line
    709, then the conversion. *)
Definition normalized (fromtimestamp : Q -> option Z)
    (fromisoformat : string -> option datetime) (float_str : Q -> string)
    (raw : pyval) : option datetime :=
  if truthy raw then to_datetime fromtimestamp fromisoformat float_str raw
  else None.

(** The timestamp field the timeline reads: the first one present. *)
Definition timestamp_fields : list string :=
  ["date"; "dtstart"; "lastmod"; "start_time"].

Definition timestamp_field (r : record) : option string :=
  find (fun key => Dict.mem key r) timestamp_fields.

(** *** A reference clock

    The two conversions on a machine whose local time is UTC, to run the
    timeline on concrete data. [fromisoformat] covers the spellings
    [YYYY-MM-DD], [YYYY-MM-DD*HH:MM:SS] and, with a UTC offset,
    [YYYY-MM-DD*HH:MM:SS+HH:MM] (or [-HH:MM]). *)

Module UtcClock.

Definition digit (c : ascii) : option Z :=
  let n := nat_of_ascii c in
  if (48 <=? n)%nat && (n <=? 57)%nat then Some (Z.of_nat (n - 48)) else None.

Fixpoint number (acc : Z) (cs : list ascii) : option Z :=
  match cs with
  | [] => Some acc
  | c :: r =>
      match digit c with
      | Some d => number (10 * acc + d) r
      | None => None
      end
  end.

Definition leap (y : Z) : bool :=
  ((y mod 4 =? 0) && negb (y mod 100 =? 0) || (y mod 400 =? 0))%Z.

Definition days_in_month (y m : Z) : Z :=
  if (m =? 2)%Z then (if leap y then 29 else 28)
  else if ((m =? 4) || (m =? 6) || (m =? 9) || (m =? 11))%Z then 30 else 31.

(** Days from 1970-01-01 to the given civil date. *)
Definition days_from_civil (y m d : Z) : Z :=
  let y' := (if m <=? 2 then y - 1 else y)%Z in
  let era := (y' / 400)%Z in
  let yoe := (y' - era * 400)%Z in
  let mp := (if 2 <? m then m - 3 else m + 9)%Z in
  let doy := ((153 * mp + 2) / 5 + d - 1)%Z in
  let doe := (yoe * 365 + yoe / 4 - yoe / 100 + doy)%Z in
  (era * 146097 + doe - 719468)%Z.

Definition civil (y m d hh mm ss : Z) : option Z :=
  if ((1 <=? y) && (1 <=? m) && (m <=? 12) && (1 <=? d)
      && (d <=? days_in_month y m) && (hh <? 24) && (mm <? 60) && (ss <? 60))%Z
  then Some (((days_from_civil y m d * 86400) + hh * 3600 + mm * 60 + ss) * 1000000)%Z
  else None.

Definition date_time (y1 y2 y3 y4 d1 m1 m2 d2 a1 a2 h1 h2 c1 n1 n2 c2 s1 s2 : ascii)
  : option Z :=
  if Ascii.eqb d1 "-" && Ascii.eqb d2 "-" && Ascii.eqb c1 ":" && Ascii.eqb c2 ":"
  then
    match number 0 [y1; y2; y3; y4], number 0 [m1; m2], number 0 [a1; a2],
          number 0 [h1; h2], number 0 [n1; n2], number 0 [s1; s2] with
    | Some y, Some m, Some d, Some hh, Some mm, Some ss => civil y m d hh mm ss
    | _, _, _, _, _, _ => None
    end
  else None.

(** Microseconds of a UTC offset [+HH:MM] or [-HH:MM]. *)
Definition offset (sign o1 o2 c p1 p2 : ascii) : option Z :=
  if Ascii.eqb c ":" && (Ascii.eqb sign "+" || Ascii.eqb sign "-")
  then
    match number 0 [o1; o2], number 0 [p1; p2] with
    | Some hh, Some mm =>
        if ((hh <? 24) && (mm <? 60))%Z
        then Some ((if Ascii.eqb sign "-" then -1 else 1)
                   * (hh * 3600 + mm * 60) * 1000000)%Z
        else None
    | _, _ => None
    end
  else None.

Definition fromisoformat (s : string) : option datetime :=
  match list_ascii_of_string s with
  | [y1; y2; y3; y4; d1; m1; m2; d2; a1; a2] =>
      if Ascii.eqb d1 "-" && Ascii.eqb d2 "-" then
        match number 0 [y1; y2; y3; y4], number 0 [m1; m2], number 0 [a1; a2] with
        | Some y, Some m, Some d => option_map naive (civil y m d 0 0 0)
        | _, _, _ => None
        end
      else None
  | [y1; y2; y3; y4; d1; m1; m2; d2; a1; a2; _; h1; h2; c1; n1; n2; c2; s1; s2] =>
      option_map naive
        (date_time y1 y2 y3 y4 d1 m1 m2 d2 a1 a2 h1 h2 c1 n1 n2 c2 s1 s2)
  | [y1; y2; y3; y4; d1; m1; m2; d2; a1; a2; _; h1; h2; c1; n1; n2; c2; s1; s2;
     sign; o1; o2; c3; p1; p2] =>
      match date_time y1 y2 y3 y4 d1 m1 m2 d2 a1 a2 h1 h2 c1 n1 n2 c2 s1 s2,
            offset sign o1 o2 c3 p1 p2 with
      | Some local, Some off => Some {| aware := true; ticks := local - off |}
      | _, _ => None
      end
  | _ => None
  end.

(** Seconds to microseconds, rounded half to even; years 1 to 9999. *)
Definition fromtimestamp (q : Q) : option Z :=
  let x := (q * inject_Z 1000000)%Q in
  let f := Qfloor x in
  let twice := Qfloor (inject_Z 2 * (x - inject_Z f))%Q in
  let exact_half := Qeq_bool (inject_Z 2 * (x - inject_Z f)) 1 in
  let us := (if exact_half then (if Z.even f then f else f + 1)
             else f + twice)%Z in
  if ((-62135596800000000 <=? us) && (us <? 253402300800000000))%Z
  then Some us else None.

(** [str] of a [float] is not needed where the clock is used. *)
Definition float_str (q : Q) : string := "".

End UtcClock.

(** *** Sample stores *)

Fixpoint answer (answers : list (string * list row)) (sql : string)
  : result (list row) :=
  match answers with
  | [] => Raise (StoreError "no such table")
  | (q, rows) :: rest => if String.eqb q sql then Ok rows else answer rest sql
  end.

(** A database holding exactly the given tables, each statement listed
    with its rows; any other statement names something absent. *)
Definition database_of (tables : list string) (answers : list (string * list row))
  : database :=
  {| connect_outcome := Ok tt;
     execute := answer answers;
     table_names := Ok tables |}.

(** A file that is not an SQLite database: it opens (the engine reads
    nothing until the first statement) and every statement fails. *)
Definition not_a_database : database :=
  {| connect_outcome := Ok tt;
     execute := fun _ => Raise (StoreError "file is not a database");
     table_names := Raise (StoreError "file is not a database") |}.

Definition opened : session := {| connection := Opened; executed := [] |}.

(** The rows the scan returns: those of the first table it accepts. *)
Definition scan_result (lower : string -> string) (db : database)
    (tables : list string) : list record :=
  match find (Protocol.table_accepted lower db) tables with
  | Some t => Protocol.sanitized_rows db (BrowserAnalyzer.table_query t)
  | None => []
  end.

(** The session after further statements have run. *)
Definition also_ran (l : list string) (s : session) : session :=
  {| connection := connection s; executed := (executed s ++ l)%list |}.

(** No table of the expected names, but one called [site_urls] with a
    [url] column. *)
Definition site_urls_db : database :=
  database_of ["site_urls"]
    [ (BrowserAnalyzer.table_query "site_urls",
       [ [("id", SInt 1); ("url", SText "https://example.org/")] ]) ].

(** A table [history_items] whose address column is called [page_url]. *)
Definition history_items_db : database :=
  database_of ["history_items"]
    [ (BrowserAnalyzer.table_query "history_items",
       [ [("id", SInt 1); ("page_url", SText "https://example.org/")] ]) ].

(** A table [visits] with rows and no address column at all. *)
Definition visits_db : database :=
  database_of ["android_metadata"; "visits"; "bookmark_urls"]
    [ (BrowserAnalyzer.table_query "visits",
       [ [("id", SInt 1); ("visit_time", SInt 1700000000)] ]);
      (BrowserAnalyzer.table_query "bookmark_urls",
       [ [("URL", SText "https://example.org/"); ("title", SNull)] ]) ].

(** The preferred contacts layout is absent, the flat listing is there. *)
Definition flat_contacts_db : database :=
  database_of ["raw_contacts"]
    [ (nth 1 ContactsAnalyzer.fallback_queries "",
       [ [("contact_id", SInt 7); ("name", SText "Ada"); ("phone_number", SText "")] ]) ].

(** An accounts file with the canonical layout. *)
Definition accounts_db : database :=
  database_of ["accounts"]
    [ (AccountsAnalyzer.accounts_sql,
       [ [("name", SText "ada@example.org"); ("type", SText "com.google");
          ("password", SNull)] ]) ].

(** A browser file with the bookmark-table layout. *)
Definition bookmarks_db : database :=
  database_of ["bookmarks"]
    [ (nth 1 BrowserAnalyzer.possible_queries "",
       [ [("url", SText "https://example.org/"); ("title", SText "Example");
          ("visits", SInt 3); ("date", SInt 1700000000000); ("bookmark", SInt 1)] ]) ].

(** A call log of 1001 calls. *)
Definition long_calllog_db : database :=
  database_of ["calls"]
    [ (CallLogAnalyzer.calls_sql,
       repeat [("number", SText "555"); ("type", SInt 1); ("date", SInt 1700000000000);
               ("duration", SInt 60); ("name", SNull); ("call_type", SText "Incoming")]
         1001) ].

(** A record of a calls dataset stamped at the epoch. *)
Definition epoch_call : record :=
  [("number", PStr "555"); ("date", PInt 0); ("call_type", PStr "Missed");
   ("dtstart", PInt 1700000000)].

(** A calls dataset of [n] records stamped one second apart. *)
Definition calls_dataset (n : nat) : list record :=
  map (fun i => [("number", PStr "555"); ("date", PInt (1700000000 + Z.of_nat i));
                 ("call_type", PStr "Incoming")])
    (seq 0 n).

(** The application after a calls load of 600 records. *)
Definition app_with_calls : app :=
  run_callback initial_app
    (Update "calllog.db" "Call Log" (calls_dataset 600) "calls").

(** Two calls at the same instant, one stamped in seconds and one in
    milliseconds, and an earlier calendar entry given as text. *)
Definition tie_store : Dict.t dataset :=
  [ ("Calendar",
     {| data := [ [("title", PStr "Launch"); ("dtstart", PStr "2023-11-14T22:13:19Z")] ];
        type := "calendar"; count := 1 |});
    ("Call Log",
     {| data := [ [("number", PStr "555-0100"); ("date", PInt 1700000000);
                   ("call_type", PStr "Incoming")];
                  [("number", PStr "555-0199"); ("date", PInt 1700000000000);
                   ("call_type", PStr "Missed")];
                  [("number", PStr "555-0111"); ("date", PInt 1700000001);
                   ("call_type", PStr "Outgoing")] ];
        type := "calls"; count := 3 |}) ].

(** ** Vocabulary of the further properties *)

(** Text made of ASCII characters only. *)
Definition ascii_only (s : string) : bool :=
  PyStr.all_chars (fun c => Utf8.between 0 127 (byte_of_ascii c)) s.

(** *** Reading a hex marker back *)

Definition unhex_digit (c : ascii) : option N :=
  let n := N_of_ascii c in
  if ((48 <=? n) && (n <=? 57))%N then Some (n - 48)%N
  else if ((97 <=? n) && (n <=? 102))%N then Some (n - 87)%N
  else None.

(** The bytes spelled by the leading pairs of hexadecimal digits, and
    what follows them. *)
Fixpoint unhex (s : string) : list byte * string :=
  match s with
  | String a (String b r) =>
      match unhex_digit a, unhex_digit b with
      | Some hi, Some lo =>
          match Byte.of_N (16 * hi + lo) with
          | Some x => let (bs, rest) := unhex r in (x :: bs, rest)
          | None => ([], s)
          end
      | _, _ => ([], s)
      end
  | _ => ([], s)
  end.

Fixpoint drop (n : nat) (s : string) : string :=
  match n, s with
  | S n', String _ s' => drop n' s'
  | _, _ => s
  end.

(** The bytes a marker [<Hex: ...>] or [<Hex: ......>] shows. *)
Definition read_hex_marker (marker : string) : option (list byte) :=
  if prefix "<Hex: " marker
  then
    let (bs, rest) := unhex (drop 6 marker) in
    if String.eqb rest ">" || String.eqb rest "...>" then Some bs else None
  else None.

(** *** How a computation treats the session *)

(** It leaves [self.connection] as it found it. *)
Definition keeps_connection {A : Type} (m : M A) : Prop :=
  forall s, connection (snd (m s)) = connection s.

(** It raises nothing, whatever the session. *)
Definition never_raises {A : Type} (m : M A) : Prop :=
  forall s, exists a, fst (m s) = Ok a.

(** It raises nothing unless the connection has been closed. *)
Definition safe_unless_closed {A : Type} (m : M A) : Prop :=
  forall s, connection s <> Closed -> exists a, fst (m s) = Ok a.

(** A database whose failures are all store errors and whose table
    listing goes through. *)
Definition well_behaved (db : database) : Prop :=
  (forall m, connect_outcome db <> Raise (OtherError m))
  /\ (forall q m, execute db q <> Raise (OtherError m))
  /\ exists tables, table_names db = Ok tables.

(** ** ForensicApp: the data table *)

(** The table widget: its column identifiers, the heading text of each,
    and the inserted rows. *)
Record treeview : Type := {
  columns : list string;
  headings : list (string * string);
  rows : list (list string)
}.

Definition empty_tree : treeview :=
  {| columns := []; headings := []; rows := [] |}.

(** [s.replace(a, b)] for one-character [a] and [b] *)
Fixpoint replace_char (a b : ascii) (s : string) : string :=
  match s with
  | EmptyString => EmptyString
  | String c s' => String (if Ascii.eqb c a then b else c) (replace_char a b s')
  end.

Section DataTable.

(** [str.title] *)
Variable title : string -> string.

(** [str] of a [float] *)
Variable float_str : Q -> string.

(** [update_data_table] (lines 622-644): the rows are deleted first;
    with no data the columns stay as they were. *)
Definition update_data_table (tree : treeview) (data : list record) : treeview :=
  match data with
  | [] => {| columns := columns tree; headings := headings tree; rows := [] |}
  | first :: _ =>
      let cols := Dict.keys first in
      {| columns := cols;
         headings := map (fun col => (col, title (replace_char "_" " " col))) cols;
         rows := map (fun item => map (fun col => get_str float_str col "" item) cols)
                   (firstn 1000 data) |}
  end.

End DataTable.

(** *** Further samples *)

(** A store with everything a browser load can ask for. *)
Definition plain_db : database :=
  database_of ["urls"]
    [ (nth 2 BrowserAnalyzer.possible_queries "",
       [ [("id", SInt 1); ("url", SBlob [xff; xfe]); ("URL", SText "shadowed")] ]) ].

(** Records of differing shape for the data table. *)
Definition mixed_records : list record :=
  [ [("first_name", PStr "Ada"); ("age", PInt 36)];
    [("first_name", PStr "Alan")] ].

(** It lets no store error out. *)
Definition no_store_error {A : Type} (m : M A) : Prop :=
  forall s msg, fst (m s) <> Raise (StoreError msg).

(** The cells of a row, sanitized in place. *)
Definition sanitized_cells (r : row) : record :=
  map (fun cell => (fst cell, sanitize (snd cell))) r.

(** A row with the same column twice, in different case. *)
Definition shadowing_row : row :=
  [("id", SInt 1); ("url", SBlob [xff; xfe]); ("URL", SText "shadowed")].

(** A store of three datasets of 90 calls each. *)
Definition crowded_store : Dict.t dataset :=
  map (fun name => (name, {| data := calls_dataset 90; type := "calls"; count := 90 |}))
    ["A"; "B"; "C"].

(** *** Samples for the revised properties *)

(** The name [bookmar] followed by U+212A KELVIN SIGN. *)
Definition kelvin_name : string :=
  "bookmar" ++ String (ascii_of_nat 226) (String (ascii_of_nat 132)
                 (String (ascii_of_nat 170) EmptyString)).

(** A browser file whose only table bears that name. *)
Definition kelvin_db : database :=
  database_of [kelvin_name]
    [ (BrowserAnalyzer.table_query kelvin_name,
       [ [("url", SText "https://example.org/")] ]) ].

(** Two columns whose names differ in the case of an ASCII letter and
    hold a letter outside ASCII ([A] and [a], each followed by U+00E9). *)
Definition ae_row : row :=
  [ ("A" ++ String (ascii_of_nat 195) (String (ascii_of_nat 169) EmptyString), SInt 1);
    ("a" ++ String (ascii_of_nat 195) (String (ascii_of_nat 169) EmptyString), SInt 2) ].

(** A messages file of three messages, and one whose engine returns
    1001 rows for the same statement. *)
Definition messages_db : database :=
  database_of ["sms"]
    [ (MessagesAnalyzer.messages_sql,
       repeat [("address", SText "555"); ("body", SText "hi"); ("date", SInt 1700000000000);
               ("type", SInt 1); ("read", SInt 1); ("message_type", SText "Received")]
         3) ].

(** A call stamped in seconds and a calendar entry whose text carries a
    UTC offset. *)
Definition mixed_store : Dict.t dataset :=
  [ ("Call Log",
     {| data := [ [("number", PStr "555-0100"); ("date", PInt 1700000000);
                   ("call_type", PStr "Incoming")] ];
        type := "calls"; count := 1 |});
    ("Calendar",
     {| data := [ [("title", PStr "Launch");
                   ("dtstart", PStr "2023-11-14T22:13:19+02:00")] ];
        type := "calendar"; count := 1 |}) ].

(** Calendar entries that all carry an offset. *)
Definition aware_store : Dict.t dataset :=
  [ ("Calendar",
     {| data := [ [("title", PStr "Berlin"); ("dtstart", PStr "2023-11-14T12:00:00+01:00")];
                  [("title", PStr "Tokyo"); ("dtstart", PStr "2023-11-14T20:30:00+09:00")];
                  [("title", PStr "London"); ("dtstart", PStr "2023-11-14T11:00:00+00:00")] ];
        type := "calendar"; count := 3 |}) ].

(** * Properties *)

(** ** Sanitizer *)

Lemma take_length (n : nat) (s : string) :
  String.length (PyStr.take n s) = Nat.min n (String.length s).
Proof.
  revert s; induction n as [| n IH]; intros [| c s]; simpl; auto.
Qed.

Lemma hex_length (bs : list byte) :
  String.length (hex bs) = (2 * List.length bs)%nat.
Proof.
  induction bs as [| b r IH]; simpl; [reflexivity | rewrite IH; lia].
Qed.

Lemma hex_digits_of_byte (b : byte) :
  PyStr.is_hex_char (hex_digit (Byte.to_N b / 16)) = true
  /\ PyStr.is_hex_char (hex_digit (Byte.to_N b mod 16)) = true.
Proof. destruct b; split; vm_compute; reflexivity. Qed.

Lemma hex_chars (bs : list byte) :
  PyStr.all_chars PyStr.is_hex_char (hex bs) = true.
Proof.
  induction bs as [| b r IH]; [reflexivity |].
  destruct (hex_digits_of_byte b) as [Hhi Hlo].
  cbn [hex PyStr.all_chars]. rewrite Hhi, Hlo, IH. reflexivity.
Qed.

Lemma all_chars_take (p : ascii -> bool) (n : nat) (s : string) :
  PyStr.all_chars p s = true -> PyStr.all_chars p (PyStr.take n s) = true.
Proof.
  revert s; induction n as [| n IH]; intros [| c s]; simpl; auto.
  intro H; apply andb_true_iff in H as [Hc Hs].
  rewrite Hc; simpl; auto.
Qed.

Lemma of_nat_to_nat (n : nat) : PyStr.to_nat (PyStr.of_nat n) = Some n.
Proof.
  unfold PyStr.to_nat, PyStr.of_nat.
  rewrite NilEmpty.usu. simpl. now rewrite DecimalNat.Unsigned.of_to.
Qed.

Example utf8_accepts_euro : Utf8.valid [xe2; x82; xac] = true.
Proof. reflexivity. Qed.

Example utf8_rejects_overlong : Utf8.valid [xc0; x80] = false.
Proof. reflexivity. Qed.

Example utf8_rejects_surrogate : Utf8.valid [xed; xa0; x80] = false.
Proof. reflexivity. Qed.

Example utf8_rejects_truncated : Utf8.valid [x41; xe2; x82] = false.
Proof. reflexivity. Qed.

Example sanitize_ff : sanitize (SBlob [xff; x00; x41]) = PStr "<Hex: ff0041>".
Proof. reflexivity. Qed.

Example sanitize_text_blob : sanitize (SBlob [x68; x69]) = PStr "hi".
Proof. reflexivity. Qed.

Example sanitize_big :
  sanitize (SBlob (repeat xff 101)) = PStr "<Binary data: 101 bytes>".
Proof. vm_compute. reflexivity. Qed.

Example sanitize_25_bytes :
  sanitize (SBlob (repeat xfe 25))
  = PStr "<Hex: fefefefefefefefefefefefefefefefefefefefefefefefefe>".
Proof. vm_compute. reflexivity. Qed.

Example sanitize_26_bytes :
  sanitize (SBlob (repeat xfe 26))
  = PStr "<Hex: fefefefefefefefefefefefefefefefefefefefefefefefefe...>".
Proof. vm_compute. reflexivity. Qed.

(** C2. A [bytes] cell that does not decode as UTF-8 becomes, when
    longer than 100 bytes, the marker [<Binary data: N bytes>] whose N
    reads back as the exact length; otherwise the marker [<Hex: h>] or
    [<Hex: h...>], where [h] is the first [min 50 (2 * len)] characters
    of the hexadecimal rendering, all of them hexadecimal digits, and the
    ellipsis is there iff [2 * len] exceeds 50. *)
Theorem sanitize_undecodable_bytes (bs : list byte) :
  Utf8.decode bs = None ->
  let len := List.length bs in
  ((100 < len)%nat ->
     sanitize (SBlob bs) = PStr ("<Binary data: " ++ PyStr.of_nat len ++ " bytes>")
     /\ PyStr.to_nat (PyStr.of_nat len) = Some len)
  /\ ((len <= 100)%nat ->
      exists h,
        sanitize (SBlob bs)
        = PStr ("<Hex: " ++ h ++ (if (50 <? 2 * len)%nat then "..." else "") ++ ">")
        /\ h = PyStr.take 50 (hex bs)
        /\ String.length h = Nat.min 50 (2 * len)
        /\ PyStr.all_chars PyStr.is_hex_char h = true).
Proof.
  intros Hdec len. unfold sanitize. rewrite Hdec. split.
  - intro Hlen. apply Nat.ltb_lt in Hlen. fold len. rewrite Hlen.
    split; [reflexivity | apply of_nat_to_nat].
  - intro Hlen. apply Nat.ltb_ge in Hlen. fold len. rewrite Hlen.
    exists (PyStr.take 50 (hex bs)). rewrite hex_length. fold len.
    repeat split.
    + rewrite take_length, hex_length. reflexivity.
    + apply all_chars_take, hex_chars.
Qed.

Lemma sanitize_undecodable_bytes_witness :
  sanitize (SBlob (repeat xfe 26))
  = PStr ("<Hex: " ++ PyStr.take 50 (hex (repeat xfe 26)) ++ "..." ++ ">")
  /\ sanitize (SBlob (repeat xff 101)) = PStr "<Binary data: 101 bytes>".
Proof.
  split.
  - destruct (sanitize_undecodable_bytes (repeat xfe 26)) as [_ Hsmall];
      [vm_compute; reflexivity |].
    destruct Hsmall as [h [Heq [Hh _]]]; [vm_compute; lia |].
    rewrite Heq, Hh. reflexivity.
  - destruct (sanitize_undecodable_bytes (repeat xff 101)) as [Hbig _];
      [vm_compute; reflexivity |].
    destruct Hbig as [Heq _]; [vm_compute; lia |].
    rewrite Heq. vm_compute. reflexivity.
Defined.

(** ** Candidate resolution *)

Lemma also_ran_nil (s : session) : also_ran [] s = s.
Proof. destruct s; unfold also_ran; simpl. now rewrite app_nil_r. Qed.

Lemma also_ran_app (l1 l2 : list string) (s : session) :
  also_ran l2 (also_ran l1 s) = also_ran (l1 ++ l2)%list s.
Proof. unfold also_ran; simpl. now rewrite app_assoc. Qed.

Lemma ran_also_ran (q : string) (s : session) : ran q s = also_ran [q] s.
Proof. reflexivity. Qed.

Lemma also_ran_connection (l : list string) (s : session) :
  connection (also_ran l s) = connection s.
Proof. reflexivity. Qed.

(** One candidate inside its [try]: a store error, any other exception
    and an empty result all fall through. *)
Lemma attempt_opened (db : database) (q : string) (s : session) :
  connection s = Opened ->
  try_except
    (results <- ForensicDatabase.query db q ;;
     ret (if nonempty results then Some results else None))
    (ret None) s
  = (Ok (if Protocol.accepted db q then Some (Protocol.sanitized_rows db q) else None),
     also_ran [q] s).
Proof.
  intro Hs.
  unfold try_except, bind, ret, ForensicDatabase.query,
    Protocol.accepted, Protocol.sanitized_rows.
  rewrite Hs.
  destruct (execute db q) as [[| r rows] | [m | m]]; reflexivity.
Qed.

Lemma resolve_none (db : database) (qs : list string) :
  existsb (Protocol.accepted db) qs = false -> Protocol.resolve db qs = [].
Proof.
  induction qs as [| q rest IH]; simpl; [reflexivity |].
  destruct (Protocol.accepted db q); simpl; [discriminate | exact IH].
Qed.

Lemma attempted_none (db : database) (qs : list string) :
  existsb (Protocol.accepted db) qs = false -> Protocol.attempted db qs = qs.
Proof.
  induction qs as [| q rest IH]; simpl; [reflexivity |].
  destruct (Protocol.accepted db q); simpl; [discriminate |].
  intro H. now rewrite IH.
Qed.

Lemma accepted_rows_nonempty (db : database) (q : string) :
  Protocol.accepted db q = nonempty (Protocol.sanitized_rows db q).
Proof.
  unfold Protocol.accepted, Protocol.sanitized_rows.
  destruct (execute db q) as [[| r rows] | e]; reflexivity.
Qed.

(** The fallback loop on an open connection. *)
Lemma first_nonempty_opened (db : database) (otherwise : M (list record))
    (qs : list string) :
  forall s, connection s = Opened ->
  first_nonempty db qs otherwise s
  = if existsb (Protocol.accepted db) qs
    then (Ok (Protocol.resolve db qs), also_ran (Protocol.attempted db qs) s)
    else otherwise (also_ran qs s).
Proof.
  induction qs as [| q rest IH]; intros s Hs.
  - simpl. now rewrite also_ran_nil.
  - cbn [first_nonempty existsb Protocol.resolve Protocol.attempted].
    unfold bind at 1. rewrite (attempt_opened db q s Hs).
    destruct (Protocol.accepted db q); cbn [orb].
    + reflexivity.
    + rewrite IH by (now rewrite also_ran_connection).
      rewrite !also_ran_app. reflexivity.
Qed.

(** A main statement followed by a fallback list ([get_contacts],
    [get_accounts]): the main one runs outside any [try]. *)
Lemma main_then_fallbacks (db : database) (main : string) (rest : list string)
    (s : session) :
  connection s = Opened ->
  (forall m, execute db main <> Raise (OtherError m)) ->
  (results <- ForensicDatabase.query db main ;;
   if nonempty results then ret results
   else first_nonempty db rest (ret [])) s
  = (Ok (Protocol.resolve db (main :: rest)),
     also_ran (Protocol.attempted db (main :: rest)) s).
Proof.
  intros Hs Hmain.
  unfold bind at 1. unfold ForensicDatabase.query. rewrite Hs.
  cbn [Protocol.resolve Protocol.attempted].
  unfold Protocol.accepted at 1 2, Protocol.sanitized_rows at 1.
  destruct (execute db main) as [[| r rows] | [m | m]] eqn:Hex.
  - cbn [map nonempty].
    rewrite ran_also_ran, first_nonempty_opened by exact Hs.
    destruct (existsb (Protocol.accepted db) rest) eqn:Hany.
    + now rewrite also_ran_app.
    + unfold ret. rewrite also_ran_app, resolve_none, attempted_none by exact Hany.
      reflexivity.
  - reflexivity.
  - cbn [nonempty].
    rewrite ran_also_ran, first_nonempty_opened by exact Hs.
    destruct (existsb (Protocol.accepted db) rest) eqn:Hany.
    + now rewrite also_ran_app.
    + unfold ret. rewrite also_ran_app, resolve_none, attempted_none by exact Hany.
      reflexivity.
  - exfalso. exact (Hmain m eq_refl).
Qed.

(** C1, as amended. On an open connection, contacts and accounts are
    resolved over their candidate list in order: a candidate is accepted
    iff its statement returns at least one row, a statement that fails
    with a store error is not accepted, the sanitized rows of the first
    accepted candidate are returned and no later candidate runs, and the
    result is empty when none is accepted. Browsing history follows the
    same rule over its four fixed candidates whenever one of them is
    accepted. *)
Theorem candidate_resolution (lower : string -> string) (db : database) (s : session) :
  connection s = Opened ->
  let contacts :=
    ContactsAnalyzer.contacts_sql :: ContactsAnalyzer.fallback_queries in
  let accounts :=
    AccountsAnalyzer.accounts_sql :: AccountsAnalyzer.fallback_queries in
  ((forall m, execute db ContactsAnalyzer.contacts_sql <> Raise (OtherError m)) ->
   ContactsAnalyzer.get_contacts db s
   = (Ok (Protocol.resolve db contacts),
      also_ran (Protocol.attempted db contacts) s))
  /\ ((forall m, execute db AccountsAnalyzer.accounts_sql <> Raise (OtherError m)) ->
      AccountsAnalyzer.get_accounts db s
      = (Ok (Protocol.resolve db accounts),
         also_ran (Protocol.attempted db accounts) s))
  /\ (existsb (Protocol.accepted db) BrowserAnalyzer.possible_queries = true ->
      BrowserAnalyzer.get_browsing_history lower db s
      = (Ok (Protocol.resolve db BrowserAnalyzer.possible_queries),
         also_ran (Protocol.attempted db BrowserAnalyzer.possible_queries) s)).
Proof.
  intros Hs contacts accounts. split; [| split].
  - intro Hmain. now apply main_then_fallbacks.
  - intro Hmain. now apply main_then_fallbacks.
  - intro Hany. unfold BrowserAnalyzer.get_browsing_history.
    rewrite first_nonempty_opened by exact Hs. now rewrite Hany.
Qed.

Lemma candidate_resolution_witness :
  ContactsAnalyzer.get_contacts flat_contacts_db opened
  = (Ok [ [("contact_id", PInt 7); ("name", PStr "Ada"); ("phone_number", PStr "")] ],
     also_ran (firstn 3 (ContactsAnalyzer.contacts_sql
                           :: ContactsAnalyzer.fallback_queries)) opened)
  /\ fst (AccountsAnalyzer.get_accounts accounts_db opened)
     = Ok [ [("name", PStr "ada@example.org"); ("type", PStr "com.google");
             ("password", PNone)] ]
  /\ executed (snd (BrowserAnalyzer.get_browsing_history PyStr.str_lower bookmarks_db opened))
     = firstn 2 BrowserAnalyzer.possible_queries.
Proof.
  destruct (candidate_resolution PyStr.str_lower flat_contacts_db opened eq_refl) as [Hc _].
  destruct (candidate_resolution PyStr.str_lower accounts_db opened eq_refl) as [_ [Ha _]].
  destruct (candidate_resolution PyStr.str_lower bookmarks_db opened eq_refl) as [_ [_ Hb]].
  split; [| split].
  - rewrite Hc; [vm_compute; reflexivity | intros m H; vm_compute in H; discriminate].
  - rewrite Ha; [vm_compute; reflexivity | intros m H; vm_compute in H; discriminate].
  - rewrite Hb; vm_compute; reflexivity.
Defined.

(** C1, counterexamples for browsing history. On a file that is not a
    database no candidate is accepted, yet the result is the store's
    error, not the empty list; on a database whose only table is
    [site_urls] no candidate is accepted either, and a row comes back. *)
Lemma browsing_resolution_counterexample :
  (existsb (Protocol.accepted not_a_database) BrowserAnalyzer.possible_queries = false
   /\ fst (BrowserAnalyzer.get_browsing_history PyStr.str_lower not_a_database opened)
      = Raise (StoreError "file is not a database"))
  /\ (existsb (Protocol.accepted site_urls_db) BrowserAnalyzer.possible_queries = false
      /\ fst (BrowserAnalyzer.get_browsing_history PyStr.str_lower site_urls_db opened)
         = Ok [ [("id", PInt 1); ("url", PStr "https://example.org/")] ])
  /\ (forall lower,
        ~ (forall db,
             fst (BrowserAnalyzer.get_browsing_history lower db opened)
             = Ok (Protocol.resolve db BrowserAnalyzer.possible_queries))).
Proof.
  split; [split; vm_compute; reflexivity |].
  split; [split; vm_compute; reflexivity |].
  intros lower H. specialize (H not_a_database). vm_compute in H. discriminate.
Qed.

(** ** The last resort of browsing history *)

Lemma table_attempt_opened (lower : string -> string)
    (db : database) (t : string) (s : session) :
  connection s = Opened ->
  let q := BrowserAnalyzer.table_query t in
  try_except
    (results <- ForensicDatabase.query db q ;;
     ret (if nonempty results && BrowserAnalyzer.has_url_column lower results
          then Some results else None))
    (ret None) s
  = (Ok (if Protocol.accepted db q
            && BrowserAnalyzer.has_url_column lower (Protocol.sanitized_rows db q)
         then Some (Protocol.sanitized_rows db q) else None),
     also_ran [q] s).
Proof.
  intros Hs q.
  unfold try_except, bind, ret, ForensicDatabase.query,
    Protocol.accepted, Protocol.sanitized_rows.
  rewrite Hs.
  destruct (execute db q) as [[| r rows] | [m | m]]; reflexivity.
Qed.

Lemma scan_tables_opened (lower : string -> string)
    (db : database) (tables : list string) :
  forall s, connection s = Opened ->
  BrowserAnalyzer.scan_tables lower db tables s
  = (Ok (scan_result lower db tables), also_ran (Protocol.scanned lower db tables) s).
Proof.
  unfold scan_result.
  induction tables as [| t rest IH]; intros s Hs.
  - simpl. unfold ret. now rewrite also_ran_nil.
  - cbn [BrowserAnalyzer.scan_tables find Protocol.scanned].
    unfold Protocol.table_accepted at 1 3.
    destruct (PyStr.contains_any BrowserAnalyzer.keywords (lower t)).
    + unfold bind at 1. rewrite (table_attempt_opened lower db t s Hs).
      cbn [andb].
      destruct (Protocol.accepted db (BrowserAnalyzer.table_query t)
                && BrowserAnalyzer.has_url_column lower
                     (Protocol.sanitized_rows db (BrowserAnalyzer.table_query t))).
      * reflexivity.
      * rewrite IH by exact Hs. now rewrite also_ran_app.
    + cbn [andb]. now apply IH.
Qed.

Lemma has_url_column_spec (lower : string -> string) (rows : list record) :
  BrowserAnalyzer.has_url_column lower rows = true <->
  exists first rest key,
    rows = first :: rest /\ In key (Dict.keys first)
    /\ PyStr.contains "url" (lower key) = true.
Proof.
  split.
  - destruct rows as [| first rest]; [discriminate |].
    simpl. intro H. apply existsb_exists in H as [key [Hin Hkey]].
    now exists first, rest, key.
  - intros [first [rest [key [-> [Hin Hkey]]]]].
    simpl. apply existsb_exists. now exists key.
Qed.



Example scan_reads_kelvin_sign :
  PyStr.contains_any BrowserAnalyzer.keywords kelvin_name = false
  /\ fst (BrowserAnalyzer.get_browsing_history PyStr.str_lower kelvin_db opened)
     = Ok [ [("url", PStr "https://example.org/")] ].
Proof. split; vm_compute; reflexivity. Qed.


(** ** The load worker *)

(** Every exit of the [try] block that is not an exception passes
    through [disconnect]. *)
Lemma load_normal_exit_closes (lower : string -> string)
    (db : database) (db_file db_name : string)
    (posted : list callback) (s : session) :
  load_body lower db db_file db_name new_session = (Ok posted, s) ->
  connection s <> Opened.
Proof.
  unfold load_body, bind at 1.
  match goal with
  | |- context [match ?m new_session with _ => _ end] =>
      destruct (m new_session) as [[p | e] s']
  end; [| discriminate].
  unfold bind, ForensicDatabase.disconnect, ret.
  destruct (connection s') eqn:Hc; intro H; inversion H; subst; simpl;
    try rewrite Hc; discriminate.
Qed.

(** C4, the failing run. A Chrome History load of a file that is not a
    database: the connection opens, the four candidates fail inside
    [query], the table listing raises, the worker posts the status
    callback of line 596 and the connection is left open. *)
Theorem load_failure_leaves_connection_open :
  _load_database_thread PyStr.str_lower not_a_database "chrome_history.db" "Chrome History"
  = ([ErrorStatus "Error loading Chrome History: file is not a database"],
     {| connection := Opened;
        executed := (BrowserAnalyzer.possible_queries
                       ++ [ForensicDatabase.catalogue_sql])%list |}).
Proof. vm_compute. reflexivity. Qed.

(** The same with the generic handler. *)
Example generic_load_failure :
  _load_database_thread PyStr.str_lower not_a_database "wifi_passwords" "WiFi Passwords"
  = ([ErrorStatus "Error loading WiFi Passwords: file is not a database"],
     {| connection := Opened; executed := [ForensicDatabase.catalogue_sql] |}).
Proof. vm_compute. reflexivity. Qed.

(** A contacts load of the same file ends without a match and closed. *)
Example contacts_load_no_match_closes :
  let r := _load_database_thread PyStr.str_lower not_a_database "contacts2.db" "Contacts" in
  fst r = [Update "contacts2.db" "Contacts" [] "contacts"]
  /\ connection (snd r) = Closed.
Proof. vm_compute. split; reflexivity. Qed.

(** ** Row limits *)

Lemma words_from_limit (n s cur : string) :
  n = "50" \/ n = "100" ->
  words_from cur (s ++ " LIMIT " ++ n) = (words_from cur s ++ ["LIMIT"; n])%list.
Proof.
  intro Hn. revert cur. induction s as [| c s IH]; intro cur.
  - destruct Hn as [-> | ->]; cbn; destruct (String.eqb cur ""); reflexivity.
  - cbn [append words_from].
    destruct (is_space c); [destruct (String.eqb cur "") |];
      rewrite IH; reflexivity.
Qed.

Lemma append_assoc (a b c : string) : (a ++ b) ++ c = a ++ b ++ c.
Proof. induction a as [| x a IH]; cbn; [reflexivity | now rewrite IH]. Qed.

Lemma limit_of_template (pre table n : string) (k : nat) :
  n = "50" \/ n = "100" -> PyStr.to_nat n = Some k ->
  comment_free (pre ++ table ++ " LIMIT " ++ n) = true ->
  limit_of (pre ++ table ++ " LIMIT " ++ n) = Some k.
Proof.
  intros Hn Hk Hfree. unfold limit_of, words. rewrite Hfree.
  rewrite <- append_assoc.
  rewrite words_from_limit by exact Hn.
  rewrite rev_app_distr. cbn. exact Hk.
Qed.

(** A statement that goes through [query] brings no more records than
    the engine returned rows. *)
Lemma query_within_limit (db : database) (sql : string) (n : nat)
    (s : session) (rows : list record) :
  honours_limits db -> limit_of sql = Some n ->
  fst (ForensicDatabase.query db sql s) = Ok rows ->
  (List.length rows <= n)%nat.
Proof.
  intros Hdb Hlim. unfold ForensicDatabase.query.
  destruct (connection s); cbn [fst];
    try (intro H; injection H as <-; cbn; lia).
  destruct (execute db sql) as [raw | [m | m]] eqn:Hex; cbn [fst];
    try discriminate; intro H; injection H as <-.
  - rewrite length_map. exact (Hdb sql n raw Hlim Hex).
  - cbn. lia.
Qed.

Lemma query_nonempty_accepted (db : database) (sql : string) (s : session)
    (rows : list record) :
  fst (ForensicDatabase.query db sql s) = Ok rows ->
  nonempty rows = true -> Protocol.accepted db sql = true.
Proof.
  unfold ForensicDatabase.query, Protocol.accepted.
  destruct (connection s); cbn [fst];
    try (intro H; injection H as <-; discriminate).
  destruct (execute db sql) as [[| r raw] | [m | m]]; cbn [fst];
    try discriminate; intro H; injection H as <-; try discriminate.
  reflexivity.
Qed.

Lemma first_nonempty_within (db : database) (N : nat) (qs : list string)
    (otherwise : M (list record)) :
  honours_limits db ->
  Forall (limited_to N) qs ->
  (forall s rows, fst (otherwise s) = Ok rows -> (List.length rows <= N)%nat) ->
  forall s rows,
    fst (first_nonempty db qs otherwise s) = Ok rows -> (List.length rows <= N)%nat.
Proof.
  intros Hdb Hqs Ho. induction Hqs as [| q rest [n [Hn HnN]] _ IH]; intros s rows.
  - apply Ho.
  - cbn [first_nonempty]. unfold bind at 1, try_except, bind, ret.
    destruct (ForensicDatabase.query db q s) as [[results | e] s1] eqn:Hq.
    + destruct (nonempty results); [| apply IH].
      cbn [fst]. intro H; injection H as <-.
      pose proof (query_within_limit db q n s results Hdb Hn) as Hle.
      rewrite Hq in Hle. specialize (Hle eq_refl). lia.
    + apply IH.
Qed.

Lemma scan_tables_within (lower : string -> string) (db : database)
    (tables : list string) :
  honours_limits db ->
  Forall (fun t => comment_free (BrowserAnalyzer.table_query t) = true) tables ->
  forall s rows,
    fst (BrowserAnalyzer.scan_tables lower db tables s) = Ok rows ->
    (List.length rows <= 50)%nat.
Proof.
  intros Hdb Ht. induction Ht as [| t rest Hfree _ IH]; intros s rows.
  - cbn. intro H; injection H as <-. cbn. lia.
  - cbn [BrowserAnalyzer.scan_tables].
    destruct (PyStr.contains_any _ _); [| apply IH].
    unfold bind at 1, try_except, bind, ret.
    destruct (ForensicDatabase.query db (BrowserAnalyzer.table_query t) s)
      as [[results | e] s1] eqn:Hq; [| apply IH].
    destruct (nonempty results && BrowserAnalyzer.has_url_column lower results);
      [| apply IH].
    cbn [fst]. intro H; injection H as <-.
    assert (Hlim : limit_of (BrowserAnalyzer.table_query t) = Some 50%nat)
      by (apply (limit_of_template "SELECT * FROM " t "50");
          [now left | reflexivity | exact Hfree]).
    pose proof (query_within_limit db _ 50 s results Hdb Hlim) as Hle.
    rewrite Hq in Hle. now apply Hle.
Qed.

Lemma main_then_fallbacks_within (db : database) (N : nat) (main : string)
    (rest : list string) (s : session) (rows : list record) :
  honours_limits db -> Forall (limited_to N) rest ->
  fst ((results <- ForensicDatabase.query db main ;;
        if nonempty results then ret results
        else first_nonempty db rest (ret [])) s) = Ok rows ->
  Protocol.accepted db main = false ->
  (List.length rows <= N)%nat.
Proof.
  intros Hdb Hrest. unfold bind at 1.
  destruct (ForensicDatabase.query db main s) as [[results | e] s1] eqn:Hq;
    [| discriminate].
  destruct (nonempty results) eqn:Hne.
  - intros _ Hacc.
    pose proof (query_nonempty_accepted db main s results) as H.
    rewrite Hq in H. specialize (H eq_refl Hne). congruence.
  - intros H _. revert H. apply first_nonempty_within; try assumption.
    intros s' rows' H'. injection H' as <-. cbn. lia.
Qed.

Lemma database_of_honours (tables : list string)
    (answers : list (string * list row)) :
  within_limits answers = true -> honours_limits (database_of tables answers).
Proof.
  intros Hw sql n rows Hlim. cbn [database_of execute].
  induction answers as [| [q raw] rest IH]; cbn [answer]; [discriminate |].
  cbn [within_limits forallb fst snd] in Hw.
  apply andb_true_iff in Hw as [Hq Hrest].
  destruct (String.eqb_spec q sql) as [-> | Hne]; [| now apply IH].
  intro H; injection H as <-. rewrite Hlim in Hq. now apply Nat.leb_le.
Qed.

Ltac limited :=
  repeat (apply Forall_cons; [eexists; split; [vm_compute; reflexivity | lia] |]);
  apply Forall_nil.




(** ** Timestamps *)

Section Conversions.

Variable fromtimestamp : Q -> option Z.
Variable fromisoformat : string -> option datetime.
Variable float_str : Q -> string.

Let instant := normalized fromtimestamp fromisoformat float_str.

Lemma remove_char_absent (c : ascii) (s : string) :
  PyStr.contains (String c "") s = false -> PyStr.remove_char c s = s.
Proof.
  induction s as [| d s IH]; [reflexivity |].
  cbn [PyStr.contains PyStr.remove_char prefix].
  destruct (Ascii.eqb_spec c d) as [-> | Hcd].
  - destruct (ascii_dec d d) as [_ | Hn]; [| now destruct Hn].
    destruct s; discriminate.
  - destruct (ascii_dec c d) as [E | _]; [now destruct Hcd |].
    cbn [orb]. intro H. now rewrite IH.
Qed.

Lemma remove_char_trailing (c : ascii) (s : string) :
  PyStr.contains (String c "") s = false ->
  PyStr.remove_char c (s ++ String c "") = s.
Proof.
  induction s as [| d s IH].
  - intros _. cbn. now rewrite Ascii.eqb_refl.
  - cbn [PyStr.contains PyStr.remove_char prefix append].
    destruct (Ascii.eqb_spec c d) as [-> | Hcd].
    + destruct (ascii_dec d d) as [_ | Hn]; [| now destruct Hn].
      destruct s; discriminate.
    + destruct (ascii_dec c d) as [E | _]; [now destruct Hcd |].
      cbn [orb]. intro H. now rewrite IH.
Qed.

(** C3, as amended. A number above 10^12 is divided by 1000 and read as
    seconds since the epoch; any other number except zero is read as
    seconds itself; a non-empty text is parsed after every [Z] has been
    removed from it, which for a text whose only [Z] is the last
    character is the text without it. Zero, [None] and the empty text
    give no instant. 1700000000 and 1700000000000 give the same
    instant. *)
Theorem timestamp_normalization :
  (forall z, (1000000000000 < z)%Z ->
     instant (PInt z)
     = option_map naive (fromtimestamp (Qred (inject_Z z / inject_Z 1000))))
  /\ (forall z, (z <= 1000000000000)%Z -> z <> 0%Z ->
        instant (PInt z) = option_map naive (fromtimestamp (inject_Z z)))
  /\ (forall q, inject_Z 1000000000000 < q ->
        instant (PFloat q)
        = option_map naive (fromtimestamp (Qred (q / inject_Z 1000))))
  /\ (forall q, q <= inject_Z 1000000000000 -> ~ q == 0 ->
        instant (PFloat q) = option_map naive (fromtimestamp q))
  /\ (forall s, s <> "" ->
        instant (PStr s) = fromisoformat (PyStr.remove_char "Z" s))
  /\ (forall s, PyStr.contains "Z" s = false ->
        PyStr.remove_char "Z" (s ++ "Z") = s /\ PyStr.remove_char "Z" s = s)
  /\ (instant (PInt 0) = None
      /\ (forall q, q == 0 -> instant (PFloat q) = None)
      /\ instant PNone = None
      /\ instant (PStr "") = None)
  /\ instant (PInt 1700000000) = instant (PInt 1700000000000).
Proof.
  unfold instant, normalized, to_datetime, seconds_of, exceeds_threshold, truthy.
  repeat match goal with |- _ /\ _ => split end.
  - intros z Hz.
    replace (z =? 0)%Z with false by (symmetry; apply Z.eqb_neq; lia).
    cbn [negb].
    replace (Qle_bool (inject_Z z) (inject_Z 1000000000000)) with false;
      [reflexivity |].
    symmetry. apply not_true_is_false. intro H. apply Qle_bool_iff in H.
    rewrite <- Zle_Qle in H. lia.
  - intros z Hz Hz0.
    replace (z =? 0)%Z with false by (symmetry; now apply Z.eqb_neq).
    cbn [negb].
    replace (Qle_bool (inject_Z z) (inject_Z 1000000000000)) with true;
      [reflexivity |].
    symmetry. apply Qle_bool_iff. now rewrite <- Zle_Qle.
  - intros q Hq.
    replace (Qeq_bool q 0) with false.
    + cbn [negb].
      replace (Qle_bool q (inject_Z 1000000000000)) with false; [reflexivity |].
      symmetry. apply not_true_is_false. intro H. apply Qle_bool_iff in H.
      apply (Qlt_irrefl q). eapply Qle_lt_trans; [exact H | exact Hq].
    + symmetry. apply not_true_is_false. intro H. apply Qeq_bool_iff in H.
      rewrite H in Hq. revert Hq. apply Qle_not_lt. discriminate.
  - intros q Hq Hq0.
    replace (Qeq_bool q 0) with false.
    + cbn [negb].
      replace (Qle_bool q (inject_Z 1000000000000)) with true; [reflexivity |].
      symmetry. now apply Qle_bool_iff.
    + symmetry. apply not_true_is_false. intro H. now apply Qeq_bool_iff in H.
  - intros s Hs.
    replace (String.eqb s "") with false; [reflexivity |].
    symmetry. now apply String.eqb_neq.
  - intros s Hs. split; [now apply remove_char_trailing | now apply remove_char_absent].
  - reflexivity.
  - intros q Hq. apply Qeq_bool_iff in Hq. now rewrite Hq.
  - reflexivity.
  - reflexivity.
  - vm_compute. reflexivity.
Qed.

(** C10. When the first present field among [date], [dtstart],
    [lastmod], [start_time] holds a false value, the record adds no
    event; [None], [0] and the empty text are such values. *)
Theorem falsy_timestamp_no_event (db_name data_type : string) (r : record)
    (key : string) (v : pyval) :
  timestamp_field r = Some key ->
  Dict.get key r = Some v ->
  truthy v = false ->
  record_event fromtimestamp fromisoformat float_str db_name data_type r = None
  /\ truthy PNone = false /\ truthy (PInt 0) = false /\ truthy (PStr "") = false.
Proof.
  intros Hfield Hget Hfalse.
  split; [| repeat split].
  unfold record_event, extract.
  unfold timestamp_field, timestamp_fields in Hfield. cbn [find] in Hfield.
  destruct (Dict.mem "date" r);
    [| destruct (Dict.mem "dtstart" r);
       [| destruct (Dict.mem "lastmod" r);
          [| destruct (Dict.mem "start_time" r); [| discriminate]]]];
    injection Hfield as <-; rewrite Hget, Hfalse; reflexivity.
Qed.

End Conversions.

Lemma timestamp_normalization_witness :
  normalized UtcClock.fromtimestamp UtcClock.fromisoformat UtcClock.float_str
    (PInt 1700000000000) = Some (naive 1700000000000000)
  /\ normalized UtcClock.fromtimestamp UtcClock.fromisoformat UtcClock.float_str
       (PInt 1700000000) = Some (naive 1700000000000000)
  /\ normalized UtcClock.fromtimestamp UtcClock.fromisoformat UtcClock.float_str
       (PFloat (3400000000001 # 2)) = Some (naive 1700000000000500)
  /\ normalized UtcClock.fromtimestamp UtcClock.fromisoformat UtcClock.float_str
       (PFloat (3 # 2)) = Some (naive 1500000)
  /\ normalized UtcClock.fromtimestamp UtcClock.fromisoformat UtcClock.float_str
       (PStr "2023-11-14T22:13:20Z") = Some (naive 1700000000000000)
  /\ normalized UtcClock.fromtimestamp UtcClock.fromisoformat UtcClock.float_str
       (PFloat (0 # 7)) = None.
Proof.
  destruct (timestamp_normalization UtcClock.fromtimestamp UtcClock.fromisoformat
              UtcClock.float_str)
    as [Hms [Hs [Hfms [Hfs [Hiso [Hz [[_ [Hzero _]] _]]]]]]].
  split; [| split; [| split; [| split; [| split]]]].
  - rewrite Hms by lia. vm_compute. reflexivity.
  - rewrite Hs by lia. vm_compute. reflexivity.
  - rewrite Hfms by (vm_compute; reflexivity). vm_compute. reflexivity.
  - rewrite Hfs by (vm_compute; discriminate). vm_compute. reflexivity.
  - rewrite Hiso by discriminate.
    destruct (Hz "2023-11-14T22:13:20") as [Hstrip _]; [vm_compute; reflexivity |].
    change "2023-11-14T22:13:20Z" with ("2023-11-14T22:13:20" ++ "Z").
    rewrite Hstrip. vm_compute. reflexivity.
  - apply Hzero. reflexivity.
Defined.

(** C3, counterexamples. Zero is a number not above 10^12 and is not
    read as the epoch: it gives no instant. In [Z2023-01-01] the [Z] is
    not trailing, and the text is parsed without it. *)
Lemma normalization_counterexample :
  (Protocol.normalize UtcClock.fromtimestamp UtcClock.fromisoformat (PInt 0)
   = Some (naive 0)
   /\ normalized UtcClock.fromtimestamp UtcClock.fromisoformat UtcClock.float_str
        (PInt 0) = None)
  /\ (Protocol.normalize UtcClock.fromtimestamp UtcClock.fromisoformat
        (PStr "Z2023-01-01") = None
      /\ normalized UtcClock.fromtimestamp UtcClock.fromisoformat UtcClock.float_str
           (PStr "Z2023-01-01") = Some (naive 1672531200000000)).
Proof. repeat split; vm_compute; reflexivity. Qed.

Lemma falsy_timestamp_no_event_witness :
  UtcClock.fromtimestamp 0 = Some 0%Z
  /\ record_event UtcClock.fromtimestamp UtcClock.fromisoformat UtcClock.float_str
       "Call Log" "calls" epoch_call = None.
Proof.
  split; [vm_compute; reflexivity |].
  apply (falsy_timestamp_no_event UtcClock.fromtimestamp UtcClock.fromisoformat
           UtcClock.float_str "Call Log" "calls" epoch_call "date" (PInt 0));
    vm_compute; reflexivity.
Defined.

(** ** The dataset store *)

Lemma dict_set_keys {V : Type} (k : string) (v : V) (d : Dict.t V) :
  Dict.keys (Dict.set k v d)
  = if Dict.mem k d then Dict.keys d else (Dict.keys d ++ [k])%list.
Proof.
  unfold Dict.mem, Dict.keys.
  induction d as [| [k' v'] r IH]; [reflexivity |].
  cbn [Dict.set Dict.get].
  destruct (String.eqb_spec k k') as [-> | Hk]; [reflexivity |].
  cbn [map fst]. rewrite IH.
  destruct (Dict.get k r); reflexivity.
Qed.

Lemma dict_mem_keys {V : Type} (k : string) (d : Dict.t V) :
  Dict.mem k d = true <-> In k (Dict.keys d).
Proof.
  unfold Dict.mem, Dict.keys.
  induction d as [| [k' v'] r IH]; cbn [Dict.get map fst In].
  - split; [discriminate | tauto].
  - destruct (String.eqb_spec k k') as [-> | Hk].
    + split; auto.
    + rewrite IH. split; [auto | intros [E | H]; [now destruct Hk | exact H]].
Qed.

Lemma dict_set_nodup {V : Type} (k : string) (v : V) (d : Dict.t V) :
  NoDup (Dict.keys d) -> NoDup (Dict.keys (Dict.set k v d)).
Proof.
  intro Hd. rewrite dict_set_keys.
  destruct (Dict.mem k d) eqn:Hm; [exact Hd |].
  apply NoDup_app; [exact Hd | repeat constructor; intros [] | ].
  intros x Hx [<- | []].
  apply dict_mem_keys in Hx. congruence.
Qed.

Lemma dict_set_fresh {V : Type} (k : string) (v : V) (d : Dict.t V) :
  ~ In k (Dict.keys d) -> Dict.set k v d = (d ++ [(k, v)])%list.
Proof.
  induction d as [| [k' v'] r IH]; [reflexivity |].
  cbn [Dict.keys map fst In Dict.set]. intro Hn.
  destruct (String.eqb_spec k k') as [-> | Hk]; [tauto |].
  cbn [List.app]. f_equal. apply IH. unfold Dict.keys. tauto.
Qed.

Lemma dict_get_set {V : Type} (k k' : string) (v : V) (d : Dict.t V) :
  Dict.get k' (Dict.set k v d)
  = if String.eqb k' k then Some v else Dict.get k' d.
Proof.
  induction d as [| [k0 v0] r IH]; cbn [Dict.set Dict.get].
  - reflexivity.
  - destruct (String.eqb_spec k k0) as [-> | Hk]; cbn [Dict.get].
    + destruct (String.eqb k' k0); reflexivity.
    + destruct (String.eqb_spec k' k0) as [-> | Hk'].
      * destruct (String.eqb_spec k0 k) as [E | _]; [now destruct Hk | reflexivity].
      * exact IH.
Qed.

(** The store of a reachable state has one entry per name, and each
    entry's count is the length of its data. *)
Lemma reachable_store (a : app) :
  reachable a ->
  NoDup (Dict.keys (loaded_databases a))
  /\ forall name info,
       Dict.get name (loaded_databases a) = Some info ->
       count info = List.length (data info).
Proof.
  induction 1 as [| a c _ [IHk IHc]].
  - split; [constructor | discriminate].
  - destruct c as [f n rs ty | text]; cbn [run_callback loaded_databases].
    + split; [now apply dict_set_nodup |].
      intros name info. rewrite dict_get_set.
      destruct (String.eqb name n); [| apply IHc].
      intro H; injection H as <-. reflexivity.
    + split; assumption.
Qed.

(** ** Timeline *)

Lemma insert_desc_perm (e : event) (l : list event) :
  Permutation (insert_desc e l) (e :: l).
Proof.
  induction l as [| x r IH]; cbn [insert_desc]; [reflexivity |].
  destruct (event_time e <? event_time x)%Z; [| reflexivity].
  rewrite IH. apply perm_swap.
Qed.

Lemma sort_desc_perm (l : list event) : Permutation (sort_desc l) l.
Proof.
  induction l as [| e r IH]; cbn [sort_desc]; [reflexivity |].
  rewrite insert_desc_perm. now constructor.
Qed.

Lemma insert_desc_sorted (e : event) (l : list event) :
  StronglySorted later_first l -> StronglySorted later_first (insert_desc e l).
Proof.
  induction 1 as [| x r Hr IH Hx]; cbn [insert_desc].
  - repeat constructor.
  - destruct (event_time e <? event_time x)%Z eqn:Hlt.
    + constructor; [exact IH |].
      apply Z.ltb_lt in Hlt.
      rewrite Forall_forall in *. intros y Hy.
      apply (Permutation_in _ (insert_desc_perm e r)) in Hy.
      destruct Hy as [<- | Hy]; [unfold later_first; lia | now apply Hx].
    + apply Z.ltb_ge in Hlt.
      constructor; [now constructor |].
      constructor; [exact Hlt |].
      eapply Forall_impl; [| exact Hx].
      unfold later_first. intros y Hy. lia.
Qed.

Lemma sort_desc_sorted (l : list event) : StronglySorted later_first (sort_desc l).
Proof.
  induction l as [| e r IH]; cbn [sort_desc]; [constructor |].
  now apply insert_desc_sorted.
Qed.

Lemma firstn_sorted (n : nat) (l : list event) :
  StronglySorted later_first l -> StronglySorted later_first (firstn n l).
Proof.
  intro H. revert n. induction H as [| x r Hr IH Hx]; intros [| n]; cbn [firstn];
    try constructor; [apply IH |].
  rewrite Forall_forall in *. intros y Hy. apply Hx.
  rewrite <- (firstn_skipn n r). apply in_or_app. now left.
Qed.

Lemma insert_desc_at_time (t : Z) (e : event) (l : list event) :
  filter (at_time t) (insert_desc e l) = filter (at_time t) (e :: l).
Proof.
  induction l as [| x r IH]; cbn [insert_desc]; [reflexivity |].
  destruct (event_time e <? event_time x)%Z eqn:Hlt; [| reflexivity].
  apply Z.ltb_lt in Hlt.
  cbn [filter] in *. rewrite IH.
  unfold at_time.
  destruct (event_time x =? t)%Z eqn:Hx, (event_time e =? t)%Z eqn:He;
    try reflexivity.
  apply Z.eqb_eq in Hx, He. lia.
Qed.

(** The sort keeps the events of one instant in their order. *)
Lemma sort_desc_stable (t : Z) (l : list event) :
  filter (at_time t) (sort_desc l) = filter (at_time t) l.
Proof.
  induction l as [| e r IH]; cbn [sort_desc]; [reflexivity |].
  rewrite insert_desc_at_time. cbn [filter]. now rewrite IH.
Qed.

Lemma filter_firstn_prefix {A : Type} (p : A -> bool) (n : nat) (l : list A) :
  exists rest, filter p l = (filter p (firstn n l) ++ rest)%list.
Proof.
  exists (filter p (skipn n l)).
  now rewrite <- filter_app, firstn_skipn.
Qed.

Lemma filter_length_perm {A : Type} (p : A -> bool) (l l' : list A) :
  Permutation l l' -> List.length (filter p l) = List.length (filter p l').
Proof.
  induction 1 as [| x l l' _ IH | x y l | l l' l'' _ IH1 _ IH2]; cbn [filter].
  - reflexivity.
  - destruct (p x); cbn [List.length]; now rewrite IH.
  - destruct (p x), (p y); reflexivity.
  - now rewrite IH1.
Qed.

Example sort_desc_keeps_ties :
  sort_desc [(naive 5, "a", "x"); (naive 7, "b", "x"); (naive 5, "c", "x");
             (naive 9, "d", "x")]
  = [(naive 9, "d", "x"); (naive 7, "b", "x"); (naive 5, "a", "x");
     (naive 5, "c", "x")].
Proof. reflexivity. Qed.

Example timeline_of_tie_store :
  update_timeline UtcClock.fromtimestamp UtcClock.fromisoformat UtcClock.float_str
    tie_store
  = Ok [ (naive 1700000001000000, "Call: Outgoing - 555-0111", "Call Log");
         (naive 1700000000000000, "Call: Incoming - 555-0100", "Call Log");
         (naive 1700000000000000, "Call: Missed - 555-0199", "Call Log");
         (naive 1699999999000000, "Calendar: Launch", "Calendar") ].
Proof. vm_compute. reflexivity. Qed.

Example timeline_of_mixed_store :
  update_timeline UtcClock.fromtimestamp UtcClock.fromisoformat UtcClock.float_str
    mixed_store
  = Raise (OtherError "can't compare offset-naive and offset-aware datetimes")
  /\ timeline_view UtcClock.fromtimestamp UtcClock.fromisoformat UtcClock.float_str
       mixed_store = [].
Proof. split; vm_compute; reflexivity. Qed.

Example timeline_of_aware_store :
  update_timeline UtcClock.fromtimestamp UtcClock.fromisoformat UtcClock.float_str
    aware_store
  = Ok [ ({| aware := true; ticks := 1699961400000000 |}, "Calendar: Tokyo", "Calendar");
         ({| aware := true; ticks := 1699959600000000 |}, "Calendar: Berlin", "Calendar");
         ({| aware := true; ticks := 1699959600000000 |}, "Calendar: London", "Calendar") ].
Proof. vm_compute. reflexivity. Qed.

Section TimelineProperties.

Variable fromtimestamp : Q -> option Z.
Variable fromisoformat : string -> option datetime.
Variable float_str : Q -> string.

Let events_of := dataset_events fromtimestamp fromisoformat float_str.
Let collected := collect_events fromtimestamp fromisoformat float_str.
Let timeline := timeline_view fromtimestamp fromisoformat float_str.
Let sorted := update_timeline fromtimestamp fromisoformat float_str.

Lemma record_event_source (db_name data_type : string) (r : record) (e : event) :
  record_event fromtimestamp fromisoformat float_str db_name data_type r = Some e ->
  event_source e = db_name.
Proof.
  unfold record_event.
  destruct (extract float_str data_type r) as [[timestamp |] desc]; [| discriminate].
  destruct (truthy timestamp); [| discriminate].
  destruct (to_datetime fromtimestamp fromisoformat float_str timestamp);
    [| discriminate].
  intro H; injection H as <-. reflexivity.
Qed.

Lemma events_of_length (db_name : string) (info : dataset) :
  (List.length (events_of db_name info) <= 100)%nat.
Proof.
  unfold events_of, dataset_events.
  pose proof (firstn_le_length 100 (data info)) as Hn.
  revert Hn. generalize (firstn 100 (data info)) as l. intros l Hn.
  apply Nat.le_trans with (List.length l); [| exact Hn]. clear Hn.
  induction l as [| r l IH]; cbn [flat_map List.length]; [lia |].
  rewrite length_app.
  destruct (record_event _ _ _ db_name (type info) r); cbn [List.length]; lia.
Qed.

Lemma events_of_other_source (db_name name : string) (info : dataset) :
  db_name <> name -> filter (from_source name) (events_of db_name info) = [].
Proof.
  intro Hne. unfold events_of, dataset_events.
  induction (firstn 100 (data info)) as [| r l IH]; [reflexivity |].
  cbn [flat_map]. rewrite filter_app, IH, app_nil_r.
  destruct (record_event _ _ _ db_name (type info) r) as [e |] eqn:He;
    [| reflexivity].
  apply record_event_source in He. cbn [filter]. unfold from_source.
  rewrite He. now apply String.eqb_neq in Hne as ->.
Qed.

Lemma collected_absent_source (name : string) (store : Dict.t dataset) :
  ~ In name (Dict.keys store) -> filter (from_source name) (collected store) = [].
Proof.
  unfold collected, collect_events, Dict.items, Dict.keys.
  induction store as [| [k info] rest IH]; [reflexivity |].
  cbn [flat_map map fst snd In]. intro Hn.
  rewrite filter_app, IH by tauto.
  fold (events_of k info). rewrite events_of_other_source by tauto. reflexivity.
Qed.

Lemma collected_source_bound (name : string) (store : Dict.t dataset) :
  NoDup (Dict.keys store) ->
  (List.length (filter (from_source name) (collected store)) <= 100)%nat.
Proof.
  unfold collected, collect_events, Dict.items, Dict.keys.
  induction store as [| [k info] rest IH]; cbn [flat_map map fst snd].
  - intros _. cbn. lia.
  - intro Hd. inversion Hd as [| ? ? Hk Hrest]; subst.
    rewrite filter_app, length_app. fold (events_of k info).
    destruct (String.eqb_spec k name) as [-> | Hne].
    + pose proof (collected_absent_source name rest Hk) as Habs.
      unfold collected, collect_events, Dict.items in Habs. rewrite Habs.
      pose proof (filter_length_le (from_source name) (events_of name info)).
      pose proof (events_of_length name info). cbn [List.length]. lia.
    + rewrite events_of_other_source by exact Hne.
      cbn [List.length]. now apply IH.
Qed.

(** C7. The timeline has at most 200 entries; the events of a dataset
    are those of its first 100 records, at most 100 of them; and in any
    state of the application no dataset contributes more than 100 events
    to the collected events or to the timeline. *)
Theorem timeline_bounds :
  (forall store, (List.length (timeline store) <= 200)%nat)
  /\ (forall db_name info,
        events_of db_name info
        = events_of db_name
            {| data := firstn 100 (data info); type := type info; count := count info |}
        /\ (List.length (events_of db_name info) <= 100)%nat)
  /\ (forall a name,
        reachable a ->
        (List.length (filter (from_source name) (collected (loaded_databases a)))
         <= 100)%nat
        /\ (List.length (filter (from_source name) (timeline (loaded_databases a)))
            <= 100)%nat).
Proof.
  split; [| split].
  - intro store. unfold timeline, timeline_view, update_timeline.
    destruct (mixed _); [cbn; lia | apply firstn_le_length].
  - intros db_name info. split; [| apply events_of_length].
    unfold events_of, dataset_events. cbn [data type].
    now rewrite firstn_firstn.
  - intros a name Ha. apply reachable_store in Ha as [Hk _].
    pose proof (collected_source_bound name _ Hk) as Hc.
    split; [exact Hc |].
    unfold timeline, timeline_view, update_timeline.
    fold (collected (loaded_databases a)).
    destruct (mixed _); [cbn; lia |].
    destruct (filter_firstn_prefix (from_source name) 200
                (sort_desc (collected (loaded_databases a)))) as [rest Hrest].
    pose proof (filter_length_perm (from_source name) _ _
                  (sort_desc_perm (collected (loaded_databases a)))) as Hp.
    rewrite Hrest, length_app in Hp. lia.
Qed.

(** C8. The timeline is produced exactly when the collected events are
    not of both kinds (naive and offset-aware). When it is, its entries
    are in descending order of instant; together with the entries the
    cut at 200 leaves out they are the collected events, in descending
    order, the events of any one instant standing in the order in which
    they were collected; and the timeline holds the first
    [min 200 (number collected)] of them. *)
Theorem timeline_sorted_stable (store : Dict.t dataset) :
  ((exists shown, sorted store = Ok shown) <-> mixed (collected store) = false)
  /\ forall shown,
       sorted store = Ok shown ->
       StronglySorted later_first shown
       /\ exists dropped,
            Permutation (shown ++ dropped) (collected store)
            /\ StronglySorted later_first (shown ++ dropped)
            /\ (forall t, filter (at_time t) (shown ++ dropped)
                          = filter (at_time t) (collected store))
            /\ List.length shown = Nat.min 200 (List.length (collected store)).
Proof.
  unfold sorted, update_timeline. fold (collected store).
  destruct (mixed (collected store)).
  - split; [split; [intros [shown H]; discriminate | discriminate] |].
    intros shown H. discriminate.
  - split; [split; [reflexivity | intros _; eexists; reflexivity] |].
    intros shown H.
    assert (Hs : shown = firstn 200 (sort_desc (collected store))) by congruence.
    subst shown. clear H.
    split; [apply firstn_sorted, sort_desc_sorted |].
    exists (skipn 200 (sort_desc (collected store))).
    rewrite firstn_skipn.
    split; [apply sort_desc_perm | split; [apply sort_desc_sorted | split]].
    + intro t. apply sort_desc_stable.
    + rewrite length_firstn.
      now rewrite (Permutation_length (sort_desc_perm (collected store))).
Qed.

End TimelineProperties.

Lemma timeline_bounds_witness :
  (List.length
     (filter (from_source "Call Log")
        (timeline_view UtcClock.fromtimestamp UtcClock.fromisoformat
           UtcClock.float_str (loaded_databases app_with_calls))) <= 100)%nat
  /\ List.length
       (timeline_view UtcClock.fromtimestamp UtcClock.fromisoformat
          UtcClock.float_str (loaded_databases app_with_calls)) = 100%nat.
Proof.
  split; [| vm_compute; reflexivity].
  destruct (timeline_bounds UtcClock.fromtimestamp UtcClock.fromisoformat
              UtcClock.float_str) as [_ [_ H]].
  apply (H app_with_calls "Call Log").
  apply reachable_step, reachable_initial.
Defined.

Lemma timeline_sorted_stable_witness :
  exists shown,
    update_timeline UtcClock.fromtimestamp UtcClock.fromisoformat UtcClock.float_str
      tie_store = Ok shown
    /\ StronglySorted later_first shown
    /\ List.length shown = 4%nat
    /\ map snd (filter (at_time 1700000000000000) shown) = ["Call Log"; "Call Log"]
    /\ map (fun e => snd (fst e)) (filter (at_time 1700000000000000) shown)
       = ["Call: Incoming - 555-0100"; "Call: Missed - 555-0199"].
Proof.
  destruct (timeline_sorted_stable UtcClock.fromtimestamp UtcClock.fromisoformat
              UtcClock.float_str tie_store) as [[_ Hok] Hshown].
  destruct (Hok eq_refl) as [shown Hs].
  exists shown. split; [exact Hs |].
  destruct (Hshown shown Hs) as [Hsorted [dropped [_ [_ [_ Hlen]]]]].
  split; [exact Hsorted | split; [exact Hlen |]].
  vm_compute in Hs. injection Hs as <-. split; reflexivity.
Defined.

(** ** Export *)

Lemma export_fold (l acc : Dict.t _) :
  NoDup (Dict.keys acc ++ Dict.keys l) ->
  fold_left (fun acc item => Dict.set (fst item) (entry_of (snd item)) acc) l acc
  = (acc ++ map (fun item => (fst item, entry_of (snd item))) l)%list.
Proof.
  revert acc. induction l as [| [k info] rest IH]; intros acc Hd.
  - cbn. now rewrite app_nil_r.
  - cbn [fold_left map fst snd].
    unfold Dict.keys in Hd. cbn [map fst] in Hd.
    rewrite dict_set_fresh.
    + rewrite IH.
      * now rewrite <- app_assoc.
      * unfold Dict.keys. rewrite map_app, <- app_assoc. exact Hd.
    + apply NoDup_remove_2 in Hd. intro Hin. apply Hd.
      apply in_or_app. now left.
Qed.

Lemma export_databases_map (store : Dict.t dataset) :
  NoDup (Dict.keys store) ->
  export_databases store = map (fun item => (fst item, entry_of (snd item))) store.
Proof.
  intro Hd. unfold export_databases, Dict.items, Dict.empty.
  now rewrite export_fold.
Qed.

Lemma dict_get_map {V W : Type} (g : V -> W) (name : string) (d : Dict.t V) :
  Dict.get name (map (fun item => (fst item, g (snd item))) d)
  = option_map g (Dict.get name d).
Proof.
  induction d as [| [k v] r IH]; [reflexivity |].
  cbn [map Dict.get fst snd]. destruct (String.eqb name k); [reflexivity | exact IH].
Qed.

(** C9. In any state of the application, exporting to a chosen file
    gives one entry per loaded dataset, none left out; the entry holds
    the first 500 records of the dataset and its record count is the
    number of records the dataset has: for 600 records, 500 records and
    a count of 600. *)
Theorem export_truncates_keeps_count (a : app) (name : string) (info : dataset)
    (file_path now : string) :
  reachable a ->
  Dict.get name (loaded_databases a) = Some info ->
  file_path <> "" ->
  exists f entry,
    export_data a file_path now = Some f
    /\ Dict.keys (databases f) = Dict.keys (loaded_databases a)
    /\ Dict.get name (databases f) = Some entry
    /\ records entry = firstn 500 (data info)
    /\ List.length (records entry) = Nat.min 500 (List.length (data info))
    /\ record_count entry = List.length (data info)
    /\ (List.length (data info) = 600%nat ->
        List.length (records entry) = 500%nat /\ record_count entry = 600%nat).
Proof.
  intros Ha Hget Hpath.
  destruct (reachable_store a Ha) as [Hk Hc].
  exists {| export_date := now; device_info := "Samsung Galaxy S22";
            databases := export_databases (loaded_databases a) |}, (entry_of info).
  cbn [databases]. rewrite export_databases_map by exact Hk.
  split; [| split; [| split; [| split; [| split; [| split]]]]].
  - unfold export_data. rewrite export_databases_map by exact Hk.
    destruct (loaded_databases a) as [| item rest]; [discriminate |].
    cbn [nonempty]. now apply String.eqb_neq in Hpath as ->.
  - unfold Dict.keys. rewrite map_map. reflexivity.
  - now rewrite dict_get_map, Hget.
  - reflexivity.
  - cbn [entry_of records]. apply length_firstn.
  - cbn [entry_of record_count]. now apply (Hc name).
  - intro H600. cbn [entry_of records record_count].
    rewrite length_firstn, (Hc name info Hget), H600. split; reflexivity.
Qed.

Lemma export_truncates_keeps_count_witness :
  exists f entry,
    export_data app_with_calls "export.json" "2026-01-01T00:00:00" = Some f
    /\ Dict.get "Call Log" (databases f) = Some entry
    /\ List.length (records entry) = 500%nat
    /\ record_count entry = 600%nat.
Proof.
  destruct (export_truncates_keeps_count app_with_calls "Call Log"
              {| data := calls_dataset 600; type := "calls"; count := 600 |}
              "export.json" "2026-01-01T00:00:00")
    as [f [entry [Hf [_ [Hg [_ [_ [_ H600]]]]]]]].
  - apply reachable_step, reachable_initial.
  - vm_compute. reflexivity.
  - discriminate.
  - exists f, entry. destruct H600 as [Hr Hc]; [vm_compute; reflexivity |].
    repeat split; assumption.
Defined.


(** * Further properties *)

(** ** Sanitizer *)

Lemma all_chars_append (p : ascii -> bool) (s1 s2 : string) :
  PyStr.all_chars p (s1 ++ s2) = PyStr.all_chars p s1 && PyStr.all_chars p s2.
Proof.
  induction s1 as [| c s IH]; cbn; [reflexivity |].
  rewrite IH. now rewrite andb_assoc.
Qed.

Lemma ascii_only_encodable (s : string) :
  ascii_only s = true -> Utf8.encodable s = true.
Proof.
  unfold ascii_only, Utf8.encodable.
  induction s as [| c s IH]; [reflexivity |].
  change (list_byte_of_string (String c s))
    with (byte_of_ascii c :: list_byte_of_string s).
  cbn [PyStr.all_chars Utf8.valid].
  intro H. apply andb_true_iff in H as [Hc Hs].
  rewrite Hc. now apply IH.
Qed.

Lemma ascii_only_uint (d : Decimal.uint) :
  ascii_only (NilEmpty.string_of_uint d) = true.
Proof. induction d; cbn; try reflexivity; exact IHd. Qed.

Lemma ascii_only_hex (bs : list byte) : ascii_only (hex bs) = true.
Proof.
  induction bs as [| b r IH]; [reflexivity |].
  unfold ascii_only in *. cbn [hex PyStr.all_chars]. rewrite IH.
  destruct b; vm_compute; reflexivity.
Qed.

Lemma ascii_only_binary_marker (n : nat) :
  ascii_only ("<Binary data: " ++ PyStr.of_nat n ++ " bytes>") = true.
Proof.
  unfold ascii_only. rewrite !all_chars_append. unfold PyStr.of_nat.
  fold (ascii_only (NilEmpty.string_of_uint (Nat.to_uint n))).
  rewrite ascii_only_uint. reflexivity.
Qed.

Lemma ascii_only_hex_marker (bs : list byte) :
  ascii_only ("<Hex: " ++ PyStr.take 50 (hex bs)
                ++ (if (50 <? String.length (hex bs))%nat then "..." else "")
                ++ ">") = true.
Proof.
  unfold ascii_only. rewrite !all_chars_append.
  rewrite (all_chars_take _ 50 (hex bs) (ascii_only_hex bs)).
  destruct (50 <? String.length (hex bs))%nat; reflexivity.
Qed.

(** X1. Whatever the cell, a text that comes out of the sanitizer
    encodes as UTF-8. *)
Theorem sanitize_text_encodable (value : sqlval) (s : string) :
  sanitize value = PStr s -> Utf8.encodable s = true.
Proof.
  destruct value as [| z | q | t | bs]; cbn [sanitize]; try discriminate.
  - destruct (Utf8.encodable t) eqn:Ht; intro H; injection H as <-;
      [exact Ht | reflexivity].
  - unfold Utf8.decode.
    destruct (Utf8.valid bs) eqn:Hv.
    + intro H; injection H as <-. unfold Utf8.encodable.
      now rewrite list_byte_of_string_of_list_byte.
    + destruct (100 <? List.length bs)%nat; intro H; injection H as <-;
        apply ascii_only_encodable;
        [exact (ascii_only_binary_marker (List.length bs))
        | exact (ascii_only_hex_marker bs)].
Qed.

Lemma sanitize_text_encodable_witness :
  Utf8.encodable "<Hex: fffe>" = true.
Proof.
  apply (sanitize_text_encodable (SBlob [xff; xfe])). reflexivity.
Defined.

Lemma unhex_pair (b : byte) (r : string) :
  unhex (String (hex_digit (Byte.to_N b / 16))
           (String (hex_digit (Byte.to_N b mod 16)) r))
  = (let (bs, rest) := unhex r in (b :: bs, rest)).
Proof. destruct b; reflexivity. Qed.

Lemma unhex_hex (bs : list byte) (tail : string) :
  tail = ">" \/ tail = "...>" -> unhex (hex bs ++ tail) = (bs, tail).
Proof.
  intro Ht. induction bs as [| b r IH].
  - destruct Ht as [-> | ->]; reflexivity.
  - cbn [hex append]. rewrite unhex_pair, IH. reflexivity.
Qed.

Lemma take_hex (n : nat) (bs : list byte) :
  PyStr.take (2 * n) (hex bs) = hex (firstn n bs).
Proof.
  revert bs. induction n as [| n IH]; intros [| b r]; try reflexivity.
  replace (2 * S n)%nat with (S (S (2 * n))) by lia.
  cbn [hex PyStr.take firstn]. now rewrite IH.
Qed.

Lemma read_hex_marker_body (body : string) :
  read_hex_marker ("<Hex: " ++ body)
  = (let (bs, rest) := unhex body in
     if String.eqb rest ">" || String.eqb rest "...>" then Some bs else None).
Proof. destruct body; reflexivity. Qed.

(** X2. The hex marker of an undecodable blob of at most 100 bytes shows
    exactly its first 25 bytes: they can be read back from it, so a blob
    of at most 25 bytes is kept whole. *)
Theorem hex_marker_keeps_first_bytes (bs : list byte) :
  Utf8.decode bs = None ->
  (List.length bs <= 100)%nat ->
  exists marker,
    sanitize (SBlob bs) = PStr marker
    /\ read_hex_marker marker = Some (firstn 25 bs)
    /\ ((List.length bs <= 25)%nat -> read_hex_marker marker = Some bs).
Proof.
  intros Hdec Hlen. unfold sanitize. rewrite Hdec.
  apply Nat.ltb_ge in Hlen. rewrite Hlen.
  eexists. split; [reflexivity |].
  assert (Hread : read_hex_marker
            ("<Hex: " ++ PyStr.take 50 (hex bs)
               ++ (if (50 <? String.length (hex bs))%nat then "..." else "") ++ ">")
          = Some (firstn 25 bs)).
  { rewrite read_hex_marker_body.
    change 50%nat with (2 * 25)%nat at 1. rewrite take_hex.
    destruct (50 <? String.length (hex bs))%nat.
    - change ("..." ++ ">") with "...>". rewrite unhex_hex by now right.
      reflexivity.
    - change ("" ++ ">") with ">". rewrite unhex_hex by now left. reflexivity. }
  split; [exact Hread |].
  intro H25. rewrite Hread. now rewrite firstn_all2.
Qed.

Lemma hex_marker_keeps_first_bytes_witness :
  exists marker,
    sanitize (SBlob [xff; x00; x41]) = PStr marker
    /\ read_hex_marker marker = Some [xff; x00; x41].
Proof.
  destruct (hex_marker_keeps_first_bytes [xff; x00; x41])
    as [marker [Hm [_ Hall]]]; [reflexivity | cbn; lia |].
  exists marker. split; [exact Hm | apply Hall; cbn; lia].
Defined.

(** ** Rows *)

Lemma equal_ignore_case_refl (k : string) : equal_ignore_case k k = true.
Proof. unfold equal_ignore_case. now rewrite String.eqb_refl. Qed.

Lemma equal_ignore_case_lower (k k' : string) :
  equal_ignore_case k k' = true -> PyStr.ascii_lower k = PyStr.ascii_lower k'.
Proof.
  unfold equal_ignore_case. intro H. apply orb_true_iff in H as [H | H].
  - apply String.eqb_eq in H. now subst.
  - apply andb_true_iff in H as [_ H]. now apply String.eqb_eq in H.
Qed.

Lemma row_get_own (r : row) (k : string) (v : sqlval) :
  NoDup (map PyStr.ascii_lower (row_keys r)) -> In (k, v) r -> row_get k r = Some v.
Proof.
  induction r as [| [k0 v0] r IH]; [intros _ [] |].
  cbn [row_keys map fst row_get In]. intros Hd Hin.
  inversion Hd as [| ? ? Hk0 Hr]; subst.
  destruct (equal_ignore_case k k0) eqn:E.
  - destruct Hin as [H | H]; [now injection H as _ -> |].
    exfalso. apply Hk0. rewrite <- (equal_ignore_case_lower _ _ E).
    apply in_map. change k with (fst (k, v)). now apply in_map.
  - destruct Hin as [H | H].
    + injection H as -> _. now rewrite equal_ignore_case_refl in E.
    + now apply IH.
Qed.

Lemma row_dict_fold (r post : row) (acc : record) :
  (forall k v, In (k, v) post -> row_get k r = Some v) ->
  NoDup (Dict.keys acc ++ row_keys post) ->
  fold_left
    (fun d key =>
       match row_get key r with
       | Some value => Dict.set key (sanitize value) d
       | None => d
       end)
    (row_keys post) acc
  = (acc ++ sanitized_cells post)%list.
Proof.
  revert acc. induction post as [| [k v] post IH]; intros acc Hget Hd.
  - cbn. now rewrite app_nil_r.
  - cbn [row_keys map fst fold_left sanitized_cells snd] in *.
    rewrite (Hget k v) by now left.
    rewrite dict_set_fresh.
    + rewrite IH.
      * now rewrite <- app_assoc.
      * intros k' v' Hin. apply Hget. now right.
      * unfold Dict.keys. rewrite map_app, <- app_assoc. exact Hd.
    + apply NoDup_remove_2 in Hd. intro Hin. apply Hd.
      apply in_or_app. now left.
Qed.

(** X3. A row whose column names differ pairwise, ASCII case ignored,
    becomes the record of the same columns in the same order, each cell
    sanitized. *)
Theorem row_dict_distinct_columns (r : row) :
  NoDup (map PyStr.ascii_lower (row_keys r)) ->
  ForensicDatabase.row_dict r = sanitized_cells r.
Proof.
  intro Hd. unfold ForensicDatabase.row_dict, Dict.empty.
  rewrite row_dict_fold; [reflexivity | | ].
  - intros k v. now apply row_get_own.
  - cbn [Dict.keys map List.app]. now apply NoDup_map_inv in Hd.
Qed.

Lemma row_dict_distinct_columns_witness :
  ForensicDatabase.row_dict
    [("number", SText "555"); ("type", SInt 1); ("blob", SBlob [xff])]
  = [("number", PStr "555"); ("type", PInt 1); ("blob", PStr "<Hex: ff>")].
Proof.
  rewrite row_dict_distinct_columns; [reflexivity |].
  vm_compute. repeat constructor; cbn; intuition discriminate.
Defined.

Lemma fold_set_keys_nodup (r : row) (ks : list string) (acc : record) :
  NoDup (Dict.keys acc) ->
  NoDup (Dict.keys
           (fold_left
              (fun d key =>
                 match row_get key r with
                 | Some value => Dict.set key (sanitize value) d
                 | None => d
                 end) ks acc)).
Proof.
  revert acc. induction ks as [| k ks IH]; intros acc Hd; [exact Hd |].
  cbn [fold_left]. apply IH.
  destruct (row_get k r); [now apply dict_set_nodup | exact Hd].
Qed.

Lemma fold_set_get (r : row) (k : string) (ks : list string) (acc : record) :
  Dict.get k
    (fold_left
       (fun d key =>
          match row_get key r with
          | Some value => Dict.set key (sanitize value) d
          | None => d
          end) ks acc)
  = if existsb (String.eqb k) ks
    then match row_get k r with
         | Some value => Some (sanitize value)
         | None => Dict.get k acc
         end
    else Dict.get k acc.
Proof.
  revert acc. induction ks as [| k0 ks IH]; intro acc; [reflexivity |].
  cbn [fold_left existsb]. rewrite IH.
  destruct (String.eqb_spec k k0) as [<- | Hne]; cbn [orb].
  - destruct (row_get k r) as [v |]; [| now destruct (existsb _ ks)].
    rewrite dict_get_set, String.eqb_refl. now destruct (existsb _ ks).
  - destruct (row_get k0 r) as [v0 |]; [| reflexivity].
    rewrite dict_get_set.
    apply String.eqb_neq in Hne. now rewrite Hne.
Qed.

Lemma row_get_first_match (r : row) (k : string) (v : sqlval) :
  row_get k r = Some v <->
  exists before name after,
    r = (before ++ (name, v) :: after)%list
    /\ equal_ignore_case k name = true
    /\ Forall (fun cell => equal_ignore_case k (fst cell) = false) before.
Proof.
  induction r as [| [k0 v0] r IH]; cbn [row_get].
  - split; [discriminate |].
    intros [[| c before] [name [after [H _]]]]; discriminate.
  - destruct (equal_ignore_case k k0) eqn:E.
    + split.
      * intro H; injection H as <-. exists [], k0, r. repeat split; auto.
      * intros [[| c before] [name [after [H [Hn Hb]]]]].
        -- now injection H as _ <- _.
        -- injection H as <- _. inversion Hb; subst. cbn in *. congruence.
    + rewrite IH. split.
      * intros [before [name [after [-> [Hn Hb]]]]].
        exists ((k0, v0) :: before), name, after. repeat split; auto.
      * intros [[| c before] [name [after [H [Hn Hb]]]]].
        -- injection H as <- _ _. congruence.
        -- injection H as _ ->. inversion Hb; subst.
           exists before, name, after. repeat split; auto.
Qed.

(** X4. In the record of any row each column name occurs once. Under a
    name of the row stands the sanitized cell of the first column whose
    name the row type takes for the same: an equal name, or, when both
    are pure ASCII, one differing in case only. So of two columns [url]
    and [URL] both entries show the cell of the first, while columns
    that differ in case and hold a letter outside ASCII keep their own
    cells. A name that is not in the row is not in the record. *)
Theorem row_dict_lookup (r : row) :
  NoDup (Dict.keys (ForensicDatabase.row_dict r))
  /\ (forall k, In k (row_keys r) ->
        exists before name v after,
          r = (before ++ (name, v) :: after)%list
          /\ equal_ignore_case k name = true
          /\ Forall (fun cell => equal_ignore_case k (fst cell) = false) before
          /\ Dict.get k (ForensicDatabase.row_dict r) = Some (sanitize v))
  /\ (forall k, ~ In k (row_keys r) ->
        Dict.get k (ForensicDatabase.row_dict r) = None).
Proof.
  unfold ForensicDatabase.row_dict. split; [| split].
  - apply fold_set_keys_nodup. constructor.
  - intros k Hin. rewrite fold_set_get.
    replace (existsb (String.eqb k) (row_keys r)) with true.
    + assert (Hsome : exists v, row_get k r = Some v).
      { clear - Hin. induction r as [| [k0 v0] r IH]; [destruct Hin |].
        cbn [row_get]. destruct (equal_ignore_case k k0) eqn:E; [now exists v0 |].
        destruct Hin as [H | H];
          [cbn in H; subst; now rewrite equal_ignore_case_refl in E |].
        now apply IH. }
      destruct Hsome as [v Hv]. rewrite Hv.
      apply row_get_first_match in Hv as [before [name [after [Hr [Hn Hb]]]]].
      exists before, name, v, after. auto.
    + symmetry. apply existsb_exists. exists k. split; [exact Hin | apply String.eqb_refl].
  - intros k Hout. rewrite fold_set_get.
    replace (existsb (String.eqb k) (row_keys r)) with false; [reflexivity |].
    symmetry. apply not_true_is_false. intro H.
    apply existsb_exists in H as [k' [Hin Heq]].
    apply String.eqb_eq in Heq. now subst.
Qed.

Example row_dict_shadowing :
  ForensicDatabase.row_dict shadowing_row
  = [("id", PInt 1); ("url", PStr "<Hex: fffe>"); ("URL", PStr "<Hex: fffe>")].
Proof. reflexivity. Qed.

Example row_dict_of_ae_row :
  ForensicDatabase.row_dict ae_row
  = [ (fst (nth 0 ae_row ("", SNull)), PInt 1);
      (fst (nth 1 ae_row ("", SNull)), PInt 2) ].
Proof. reflexivity. Qed.

Lemma row_dict_lookup_witness :
  Dict.get "URL" (ForensicDatabase.row_dict shadowing_row) = Some (PStr "<Hex: fffe>").
Proof.
  destruct (row_dict_lookup shadowing_row) as [_ [Hin _]].
  destruct (Hin "URL") as [before [name [v [after [Hr [Hn [Hb Hget]]]]]]];
    [cbn; tauto |].
  rewrite Hget.
  destruct before as [| c0 [| c1 [| c2 before]]]; cbn in Hr.
  - injection Hr as <- <- <-. discriminate.
  - injection Hr as <- <- <- <-. reflexivity.
  - injection Hr as <- _ <- <- <-. inversion Hb as [| ? ? _ Hb']; subst.
    inversion Hb' as [| ? ? H1 _]; subst. discriminate.
  - apply (f_equal (@List.length _)) in Hr. cbn in Hr.
    rewrite length_app in Hr. cbn in Hr. lia.
Defined.

(** ** Analyzers and the session *)

Lemma bind_keeps {A B : Type} (m : M A) (k : A -> M B) :
  keeps_connection m -> (forall a, keeps_connection (k a)) ->
  keeps_connection (bind m k).
Proof.
  intros Hm Hk s. unfold bind. specialize (Hm s).
  destruct (m s) as [[a | e] s']; cbn [snd] in *; [| exact Hm].
  now rewrite Hk.
Qed.

Lemma ret_keeps {A : Type} (a : A) : keeps_connection (ret a).
Proof. intro s. reflexivity. Qed.

Lemma try_keeps {A : Type} (m h : M A) :
  keeps_connection m -> keeps_connection h -> keeps_connection (try_except m h).
Proof.
  intros Hm Hh s. unfold try_except. specialize (Hm s).
  destruct (m s) as [[a | e] s']; cbn [snd] in *; [exact Hm |].
  now rewrite Hh.
Qed.

Lemma query_keeps (db : database) (sql : string) :
  keeps_connection (ForensicDatabase.query db sql).
Proof.
  intro s. unfold ForensicDatabase.query.
  destruct (connection s) eqn:Hc; try (cbn; exact Hc).
  destruct (execute db sql) as [rows | [m | m]]; cbn; exact Hc.
Qed.

Lemma get_tables_keeps (db : database) :
  keeps_connection (ForensicDatabase.get_tables db).
Proof.
  intro s. unfold ForensicDatabase.get_tables.
  destruct (connection s) eqn:Hc; try (cbn; exact Hc).
  destruct (table_names db); cbn; exact Hc.
Qed.

Lemma first_nonempty_keeps (db : database) (qs : list string)
    (otherwise : M (list record)) :
  keeps_connection otherwise -> keeps_connection (first_nonempty db qs otherwise).
Proof.
  intro Ho. induction qs as [| q rest IH]; [exact Ho |].
  cbn [first_nonempty]. apply bind_keeps.
  - apply try_keeps; [| apply ret_keeps].
    apply bind_keeps; [apply query_keeps | intro; apply ret_keeps].
  - intros [results |]; [apply ret_keeps | exact IH].
Qed.

Lemma scan_tables_keeps (lower : string -> string)
    (db : database) (tables : list string) :
  keeps_connection (BrowserAnalyzer.scan_tables lower db tables).
Proof.
  induction tables as [| t rest IH]; [apply ret_keeps |].
  cbn [BrowserAnalyzer.scan_tables].
  destruct (PyStr.contains_any _ _); [| exact IH].
  apply bind_keeps.
  - apply try_keeps; [| apply ret_keeps].
    apply bind_keeps; [apply query_keeps | intro; apply ret_keeps].
  - intros [results |]; [apply ret_keeps | exact IH].
Qed.

Lemma main_fallback_keeps (db : database) (main : string) (rest : list string) :
  keeps_connection
    (results <- ForensicDatabase.query db main ;;
     if nonempty results then ret results
     else first_nonempty db rest (ret [])).
Proof.
  apply bind_keeps; [apply query_keeps |].
  intro results. destruct (nonempty results); [apply ret_keeps |].
  apply first_nonempty_keeps, ret_keeps.
Qed.

Lemma browsing_keeps (lower : string -> string) (db : database) :
  keeps_connection (BrowserAnalyzer.get_browsing_history lower db).
Proof.
  apply first_nonempty_keeps. apply bind_keeps; [apply get_tables_keeps |].
  intro tables. apply scan_tables_keeps.
Qed.

Lemma bind_no_store_error {A B : Type} (m : M A) (k : A -> M B) :
  no_store_error m -> (forall a, no_store_error (k a)) -> no_store_error (bind m k).
Proof.
  intros Hm Hk s msg. unfold bind. specialize (Hm s msg).
  destruct (m s) as [[a | e] s']; cbn [fst] in *; [apply Hk |].
  intro H. apply Hm. injection H as ->. reflexivity.
Qed.

Lemma ret_no_store_error {A : Type} (a : A) : no_store_error (ret a).
Proof. intros s msg. discriminate. Qed.

Lemma query_no_store_error (db : database) (sql : string) :
  no_store_error (ForensicDatabase.query db sql).
Proof.
  intros s msg. unfold ForensicDatabase.query.
  destruct (connection s); try discriminate.
  destruct (execute db sql) as [rows | [m | m]]; discriminate.
Qed.

(** A candidate inside its [try] raises nothing at all. *)
Lemma attempt_never_raises (db : database) (q : string)
    (test : list record -> bool) :
  never_raises
    (try_except
       (results <- ForensicDatabase.query db q ;;
        ret (if test results then Some results else None))
       (ret None)).
Proof.
  intro s. unfold try_except, bind, ret.
  destruct (ForensicDatabase.query db q s) as [[results | e] s']; cbn [fst];
    eexists; reflexivity.
Qed.

Lemma first_nonempty_raises (db : database) (qs : list string)
    (otherwise : M (list record)) (s : session) (e : exn) :
  fst (first_nonempty db qs otherwise s) = Raise e ->
  exists s', fst (otherwise s') = Raise e.
Proof.
  revert s. induction qs as [| q rest IH]; intros s; [eauto |].
  cbn [first_nonempty]. unfold bind at 1.
  destruct (attempt_never_raises db q nonempty s) as [returned Hr].
  destruct (try_except _ _ s) as [[r | e'] s'] eqn:Ht; cbn [fst] in Hr;
    [| discriminate].
  destruct r as [results |]; [discriminate | apply IH].
Qed.

Lemma scan_tables_never_raises (lower : string -> string)
    (db : database) (tables : list string) :
  never_raises (BrowserAnalyzer.scan_tables lower db tables).
Proof.
  induction tables as [| t rest IH]; intro s; [now exists [] |].
  cbn [BrowserAnalyzer.scan_tables].
  destruct (PyStr.contains_any _ _); [| apply IH].
  unfold bind at 1.
  destruct (attempt_never_raises db (BrowserAnalyzer.table_query t)
              (fun results => nonempty results && BrowserAnalyzer.has_url_column lower results)
              s) as [returned Hr].
  destruct (try_except _ _ s) as [[r | e'] s'] eqn:Ht; cbn [fst] in Hr;
    [| discriminate].
  destruct r as [results |]; [now exists results | apply IH].
Qed.

Lemma main_fallback_no_store_error (db : database) (main : string)
    (rest : list string) :
  no_store_error
    (results <- ForensicDatabase.query db main ;;
     if nonempty results then ret results
     else first_nonempty db rest (ret [])).
Proof.
  apply bind_no_store_error; [apply query_no_store_error |].
  intros results. destruct (nonempty results); [apply ret_no_store_error |].
  intros s msg H. apply first_nonempty_raises in H as [s' H]. discriminate.
Qed.

(** X5. Whatever the database and the session, no store error comes out
    of the contacts, calls, messages, downloads, metadata, calendar and
    accounts analyzers, and none of them touches the connection. *)
Theorem analyzers_contain_store_errors (db : database) :
  (no_store_error (ContactsAnalyzer.get_contacts db)
   /\ no_store_error (CallLogAnalyzer.get_call_history db)
   /\ no_store_error (MessagesAnalyzer.get_messages db)
   /\ no_store_error (BrowserAnalyzer.get_chrome_downloads db)
   /\ no_store_error (BrowserAnalyzer.get_meta_data db)
   /\ no_store_error (CalendarAnalyzer.get_events db)
   /\ no_store_error (AccountsAnalyzer.get_accounts db))
  /\ (keeps_connection (ContactsAnalyzer.get_contacts db)
      /\ keeps_connection (CallLogAnalyzer.get_call_history db)
      /\ keeps_connection (MessagesAnalyzer.get_messages db)
      /\ keeps_connection (BrowserAnalyzer.get_chrome_downloads db)
      /\ keeps_connection (BrowserAnalyzer.get_meta_data db)
      /\ keeps_connection (CalendarAnalyzer.get_events db)
      /\ keeps_connection (AccountsAnalyzer.get_accounts db)).
Proof.
  split; repeat split;
    first [ apply main_fallback_no_store_error
          | apply query_no_store_error
          | apply main_fallback_keeps
          | apply query_keeps ].
Qed.



(** X7. After [disconnect] nothing runs any more: every statement and
    every analyzer but browsing history gives the empty list and leaves
    the log of statements as it was, while the table listing, and
    browsing history with it, raises a store error. *)
Theorem use_after_disconnect (lower : string -> string) (db : database) (s : session) :
  connection s = Opened ->
  let closed := snd (ForensicDatabase.disconnect s) in
  connection closed = Closed
  /\ executed closed = executed s
  /\ ForensicDatabase.disconnect closed = (Ok tt, closed)
  /\ (forall sql, ForensicDatabase.query db sql closed = (Ok [], closed))
  /\ ContactsAnalyzer.get_contacts db closed = (Ok [], closed)
  /\ AccountsAnalyzer.get_accounts db closed = (Ok [], closed)
  /\ (exists msg, ForensicDatabase.get_tables db closed = (Raise (StoreError msg), closed))
  /\ (exists msg,
        BrowserAnalyzer.get_browsing_history lower db closed
        = (Raise (StoreError msg), closed)).
Proof.
  intro Hs. unfold ForensicDatabase.disconnect. rewrite Hs. cbn [snd].
  repeat match goal with |- _ /\ _ => split end;
    try reflexivity; eexists; reflexivity.
Qed.

Lemma use_after_disconnect_witness :
  ContactsAnalyzer.get_contacts flat_contacts_db
    (snd (ForensicDatabase.disconnect opened))
  = (Ok [], {| connection := Closed; executed := [] |}).
Proof.
  destruct (use_after_disconnect PyStr.str_lower flat_contacts_db opened eq_refl)
    as [_ [_ [_ [_ [H _]]]]].
  exact H.
Defined.

(** ** The load worker, further *)

Lemma load_with_shape (db : database) (db_file db_name : string)
    (resolve : M (list record)) (data_type : string) (s s' : session)
    (posted : list callback) :
  load_with db db_file db_name resolve data_type s = (Ok posted, s') ->
  posted = [] \/ exists d, posted = [Update db_file db_name d data_type].
Proof.
  unfold load_with, bind, ForensicDatabase.connect, ret.
  destruct (connect_outcome db) as [u | [m | m]]; try discriminate.
  - destruct (resolve _) as [[d | e] s1]; [| discriminate].
    intro H; injection H as <- _. right. now exists d.
  - intro H; injection H as <- _. now left.
Qed.

Lemma load_generic_shape (db : database) (db_file db_name : string)
    (s s' : session) (posted : list callback) :
  load_generic db db_file db_name s = (Ok posted, s') ->
  posted = [] \/ exists d, posted = [Update db_file db_name d "generic"].
Proof.
  unfold load_generic, bind, ForensicDatabase.connect, ret.
  destruct (connect_outcome db) as [u | [m | m]]; try discriminate.
  - destruct (ForensicDatabase.get_tables db _) as [[[| first rest] | e] s1];
      try discriminate.
    + intro H; injection H as <- _. now left.
    + destruct (ForensicDatabase.query db _ s1) as [[d | e] s2]; [| discriminate].
      intro H; injection H as <- _. right. now exists d.
  - intro H; injection H as <- _. now left.
Qed.

Lemma load_body_shape (lower : string -> string)
    (db : database) (db_file db_name : string)
    (posted : list callback) (s : session) :
  load_body lower db db_file db_name new_session = (Ok posted, s) ->
  posted = [] \/ exists d ty, posted = [Update db_file db_name d ty].
Proof.
  unfold load_body, bind at 1.
  match goal with
  | |- context [match ?m new_session with _ => _ end] =>
      destruct (m new_session) as [[p | e] s'] eqn:Hd
  end; [| discriminate].
  unfold bind, ForensicDatabase.disconnect, ret.
  intro H. assert (p = posted) as <- by (destruct (connection s'); now inversion H).
  clear H.
  repeat match type of Hd with
         | context [if ?c then _ else _] => destruct c
         end;
    first [ apply load_with_shape in Hd as [-> | [d ->]]; [now left | right; eauto]
          | apply load_generic_shape in Hd as [-> | [d ->]]; [now left | right; eauto] ].
Qed.

(** X8. The worker posts at most one callback. When it posts data, the
    data go under the names it was given and the connection is not left
    open; a connection left open always comes with an error status; and
    when the file cannot be opened nothing is posted and nothing runs. *)
Theorem worker_posts (lower : string -> string)
    (db : database) (db_file db_name : string) :
  let r := _load_database_thread lower db db_file db_name in
  (List.length (fst r) <= 1)%nat
  /\ (forall f n d ty,
        In (Update f n d ty) (fst r) ->
        f = db_file /\ n = db_name /\ connection (snd r) <> Opened)
  /\ (connection (snd r) = Opened -> exists text, fst r = [ErrorStatus text])
  /\ (forall msg, connect_outcome db = Raise (StoreError msg) ->
        r = ([], new_session)).
Proof.
  unfold _load_database_thread.
  destruct (load_body lower db db_file db_name new_session) as [[posted | e] s] eqn:Hb;
    cbn [fst snd].
  - pose proof (load_normal_exit_closes _ _ _ _ _ _ Hb) as Hclosed.
    pose proof (load_body_shape _ _ _ _ _ _ Hb) as Hshape.
    split; [| split; [| split]].
    + destruct Hshape as [-> | [d [ty ->]]]; cbn; lia.
    + intros f n d ty Hin.
      destruct Hshape as [-> | [d' [ty' ->]]]; [destruct Hin |].
      destruct Hin as [H | []]. injection H as <- <- _ _. auto.
    + intro H. now destruct Hclosed.
    + intros msg Hc. revert Hb. unfold load_body, bind at 1.
      repeat match goal with
             | |- context [if ?c then _ else _] => destruct c
             end;
        unfold load_with, load_generic, bind, ForensicDatabase.connect; rewrite Hc;
        cbn; intro H; now inversion H.
  - split; [cbn; lia | split; [| split]].
    + intros f n d ty [H | []]. discriminate.
    + eauto.
    + intros msg Hc. exfalso. revert Hb. unfold load_body, bind at 1.
      repeat match goal with
             | |- context [if ?c then _ else _] => destruct c
             end;
        unfold load_with, load_generic, bind, ForensicDatabase.connect; rewrite Hc;
        cbn; discriminate.
Qed.

Lemma worker_posts_witness :
  fst (_load_database_thread PyStr.str_lower not_a_database "chrome_history.db" "Chrome History")
  = [ErrorStatus "Error loading Chrome History: file is not a database"].
Proof.
  destruct (worker_posts PyStr.str_lower not_a_database "chrome_history.db" "Chrome History")
    as [_ [_ [Hopen _]]].
  destruct Hopen as [text Ht]; [vm_compute; reflexivity |].
  rewrite Ht. vm_compute in Ht. injection Ht as <-. reflexivity.
Defined.

Lemma bind_safe {A B : Type} (m : M A) (k : A -> M B) :
  keeps_connection m -> safe_unless_closed m ->
  (forall a, safe_unless_closed (k a)) ->
  safe_unless_closed (bind m k).
Proof.
  intros Hk Hm Hka s Hs. unfold bind.
  specialize (Hk s). destruct (Hm s Hs) as [a Ha].
  destruct (m s) as [[a' | e] s']; cbn [fst snd] in *; [| discriminate].
  apply Hka. now rewrite Hk.
Qed.

Lemma never_raises_safe {A : Type} (m : M A) :
  never_raises m -> safe_unless_closed m.
Proof. intros H s _. apply H. Qed.

Section WellBehaved.

Variable lower : string -> string.

Variable db : database.
Hypothesis Hdb : well_behaved db.

Lemma query_never_raises (sql : string) :
  never_raises (ForensicDatabase.query db sql).
Proof.
  destruct Hdb as [_ [Hex _]].
  intro s. unfold ForensicDatabase.query.
  destruct (connection s); try (eexists; reflexivity).
  specialize (Hex sql).
  destruct (execute db sql) as [rows | [m | m]]; try (eexists; reflexivity).
  now destruct (Hex m).
Qed.

Lemma get_tables_safe : safe_unless_closed (ForensicDatabase.get_tables db).
Proof.
  destruct Hdb as [_ [_ [tables Ht]]].
  intros s Hs. unfold ForensicDatabase.get_tables. rewrite Ht.
  destruct (connection s); [eexists; reflexivity | eexists; reflexivity | now destruct Hs].
Qed.

Lemma first_nonempty_safe (qs : list string) (otherwise : M (list record)) :
  safe_unless_closed otherwise ->
  safe_unless_closed (first_nonempty db qs otherwise).
Proof.
  intro Ho. induction qs as [| q rest IH]; [exact Ho |].
  cbn [first_nonempty]. apply bind_safe.
  - apply try_keeps; [| apply ret_keeps].
    apply bind_keeps; [apply query_keeps | intro; apply ret_keeps].
  - apply never_raises_safe, attempt_never_raises.
  - intros [results |]; [| exact IH].
    intros s _. now exists results.
Qed.

Lemma main_fallback_safe (main : string) (rest : list string) :
  safe_unless_closed
    (results <- ForensicDatabase.query db main ;;
     if nonempty results then ret results
     else first_nonempty db rest (ret [])).
Proof.
  apply bind_safe;
    [apply query_keeps | apply never_raises_safe, query_never_raises |].
  intro results. destruct (nonempty results).
  - intros s _. now exists results.
  - apply first_nonempty_safe. intros s _. now exists [].
Qed.

Lemma browsing_safe : safe_unless_closed (BrowserAnalyzer.get_browsing_history lower db).
Proof.
  apply first_nonempty_safe. apply bind_safe;
    [apply get_tables_keeps | apply get_tables_safe |].
  intro tables. apply never_raises_safe, scan_tables_never_raises.
Qed.

Lemma load_with_ok (db_file db_name : string) (resolve : M (list record))
    (data_type : string) :
  safe_unless_closed resolve ->
  exists posted s, load_with db db_file db_name resolve data_type new_session
                   = (Ok posted, s).
Proof.
  destruct Hdb as [Hc _]. intro Hr.
  unfold load_with, bind, ForensicDatabase.connect, ret.
  destruct (connect_outcome db) as [u | [m | m]].
  - destruct (Hr (with_connection Opened new_session)) as [d Hd]; [discriminate |].
    destruct (resolve _) as [[d' | e] s1]; [eauto | discriminate].
  - eauto.
  - now destruct (Hc m).
Qed.

Lemma load_generic_ok (db_file db_name : string) :
  exists posted s, load_generic db db_file db_name new_session = (Ok posted, s).
Proof.
  destruct Hdb as [Hc _].
  unfold load_generic, bind, ForensicDatabase.connect, ret.
  destruct (connect_outcome db) as [u | [m | m]].
  - destruct (get_tables_safe (with_connection Opened new_session)) as [ts Hts];
      [discriminate |].
    pose proof (get_tables_keeps db (with_connection Opened new_session)) as Hk.
    destruct (ForensicDatabase.get_tables db _) as [[ts' | e] s1];
      [| discriminate].
    destruct ts' as [| first rest]; [eauto |].
    destruct (query_never_raises (sample_query first) s1) as [d Hd].
    destruct (ForensicDatabase.query db _ s1) as [[d' | e] s2]; [eauto | discriminate].
  - eauto.
  - now destruct (Hc m).
Qed.


End WellBehaved.

Lemma database_of_well_behaved (tables : list string)
    (answers : list (string * list row)) :
  well_behaved (database_of tables answers).
Proof.
  split; [| split].
  - intros m H. discriminate.
  - intros q m. cbn [database_of execute].
    induction answers as [| [q' rows] rest IH]; cbn [answer]; [discriminate |].
    destruct (String.eqb q' q); [discriminate | exact IH].
  - now exists tables.
Qed.


(** ** The dataset store, further *)

(** X10. Loading data under a display name already in the store
    replaces that entry where it stands: the store keeps its names and
    their order, the entry holds the new data, type and count, and every
    other entry is untouched. An error status changes nothing in the
    store. *)
Theorem reload_replaces (a : app) (db_file db_name : string)
    (records : list record) (data_type : string) :
  Dict.mem db_name (loaded_databases a) = true ->
  let a' := run_callback a (Update db_file db_name records data_type) in
  Dict.keys (loaded_databases a') = Dict.keys (loaded_databases a)
  /\ Dict.get db_name (loaded_databases a')
     = Some {| data := records; type := data_type; count := List.length records |}
  /\ (forall other, other <> db_name ->
        Dict.get other (loaded_databases a') = Dict.get other (loaded_databases a))
  /\ (forall text,
        loaded_databases (run_callback a (ErrorStatus text)) = loaded_databases a).
Proof.
  intros Hmem a'. cbn [a' run_callback loaded_databases].
  split; [| split; [| split]].
  - now rewrite dict_set_keys, Hmem.
  - now rewrite dict_get_set, String.eqb_refl.
  - intros other Hne. rewrite dict_get_set.
    now apply String.eqb_neq in Hne as ->.
  - reflexivity.
Qed.

Lemma reload_replaces_witness :
  Dict.keys (loaded_databases
               (run_callback app_with_calls
                  (Update "calllog.db" "Call Log" (calls_dataset 2) "calls")))
  = ["Call Log"].
Proof.
  destruct (reload_replaces app_with_calls "calllog.db" "Call Log"
              (calls_dataset 2) "calls") as [Hkeys _]; [reflexivity |].
  rewrite Hkeys. reflexivity.
Defined.

(** ** Timeline, further *)

Lemma sorted_app_order (l1 l2 : list event) :
  StronglySorted later_first (l1 ++ l2) ->
  forall e e', In e l1 -> In e' l2 -> later_first e e'.
Proof.
  induction l1 as [| x l1 IH]; cbn [List.app]; intros Hs e e' He He'; [destruct He |].
  inversion Hs as [| ? ? Hrest Hall]; subst.
  destruct He as [<- | He]; [| now apply IH].
  rewrite Forall_forall in Hall. apply Hall. apply in_or_app. now right.
Qed.

Lemma Qred_inject_Z (k : Z) : Qred (inject_Z k) = inject_Z k.
Proof.
  unfold Qred, inject_Z. cbn [Qnum Qden].
  pose proof (Z.ggcd_gcd k 1) as Hg.
  pose proof (Z.ggcd_correct_divisors k 1) as Hd.
  destruct (Z.ggcd k 1) as [g [q1 q2]]. cbn [fst snd] in *.
  rewrite Z.gcd_1_r in Hg. subst g. destruct Hd as [H1 H2].
  rewrite Z.mul_1_l in H1, H2. subst. reflexivity.
Qed.

Section TimelineFurther.

Variable fromtimestamp : Q -> option Z.
Variable fromisoformat : string -> option datetime.
Variable float_str : Q -> string.

Let event_of := record_event fromtimestamp fromisoformat float_str.
Let collected := collect_events fromtimestamp fromisoformat float_str.
Let timeline := timeline_view fromtimestamp fromisoformat float_str.
Let sorted := update_timeline fromtimestamp fromisoformat float_str.
Let instant := normalized fromtimestamp fromisoformat float_str.

Lemma extract_timestamp (data_type : string) (r : record) :
  fst (extract float_str data_type r)
  = match timestamp_field r with
    | Some key => Dict.get key r
    | None => None
    end.
Proof.
  unfold extract, timestamp_field, timestamp_fields. cbn [find].
  destruct (Dict.mem "date" r); [reflexivity |].
  destruct (Dict.mem "dtstart" r); [reflexivity |].
  destruct (Dict.mem "lastmod" r); [reflexivity |].
  destruct (Dict.mem "start_time" r); reflexivity.
Qed.

(** X11. A record adds an event exactly when the first present field
    among [date], [dtstart], [lastmod], [start_time] holds a true value
    that converts to an instant; the event carries that instant and the
    dataset's name. A record with none of the four fields, or whose
    value does not convert, adds nothing. *)
Theorem record_event_iff (db_name data_type : string) (r : record) (e : event) :
  event_of db_name data_type r = Some e
  <-> exists key v dt,
        timestamp_field r = Some key
        /\ Dict.get key r = Some v
        /\ instant v = Some dt
        /\ e = (dt, snd (extract float_str data_type r), db_name).
Proof.
  unfold event_of, record_event, instant, normalized.
  pose proof (extract_timestamp data_type r) as Hx.
  destruct (extract float_str data_type r) as [ts desc]. cbn [fst snd] in *.
  split.
  - destruct ts as [v |]; [| discriminate].
    destruct (timestamp_field r) as [key |]; [| discriminate].
    destruct (truthy v) eqn:Ht; [| discriminate].
    destruct (to_datetime _ _ _ v) as [dt |] eqn:Hdt; [| discriminate].
    intro H; injection H as <-.
    exists key, v, dt. rewrite Ht. auto.
  - intros [key [v [dt [Hk [Hg [Hi ->]]]]]].
    rewrite Hk, Hg in Hx. subst ts.
    destruct (truthy v); [| discriminate]. now rewrite Hi.
Qed.

(** X12. Every entry of the timeline is the event of one of the first
    100 records of a loaded dataset, under that dataset's name. *)
Theorem timeline_sound (store : Dict.t dataset) (e : event) :
  In e (timeline store) ->
  exists db_name info r,
    In (db_name, info) (Dict.items store)
    /\ In r (firstn 100 (data info))
    /\ event_of db_name (type info) r = Some e.
Proof.
  unfold timeline, timeline_view, update_timeline. intro Hin.
  assert (Hc : In e (collected store)).
  { unfold collected. destruct (mixed _); [destruct Hin |].
    apply (Permutation_in _ (sort_desc_perm _)).
    rewrite <- (firstn_skipn 200 (sort_desc _)). apply in_or_app. now left. }
  unfold collected, collect_events in Hc.
  apply in_flat_map in Hc as [[db_name info] [Hitem He]].
  unfold dataset_events in He. cbn [fst snd] in He.
  apply in_flat_map in He as [r [Hr He]].
  exists db_name, info, r. repeat split; try assumption.
  unfold event_of. destruct (record_event _ _ _ db_name (type info) r) as [e' |];
    [| destruct He].
  destruct He as [-> | []]. reflexivity.
Qed.

(** X13. When the timeline is produced, the cut at 200 keeps the most
    recent events: the timeline together with the events left out is a
    rearrangement of the collected events, no event left out is later
    than an event shown, and when at most 200 events are collected none
    is left out. *)
Theorem timeline_keeps_latest (store : Dict.t dataset) (shown : list event) :
  sorted store = Ok shown ->
  exists dropped,
    Permutation (shown ++ dropped) (collected store)
    /\ (forall e e', In e shown -> In e' dropped ->
          (event_time e' <= event_time e)%Z)
    /\ ((List.length (collected store) <= 200)%nat -> dropped = []).
Proof.
  unfold sorted, update_timeline. fold (collected store).
  destruct (mixed (collected store)); [discriminate |].
  intro H.
  assert (Hs : shown = firstn 200 (sort_desc (collected store))) by congruence.
  subst shown. clear H.
  exists (skipn 200 (sort_desc (collected store))).
  split; [| split].
  - rewrite firstn_skipn. apply sort_desc_perm.
  - apply sorted_app_order. rewrite firstn_skipn. apply sort_desc_sorted.
  - intro Hlen. apply skipn_all2.
    now rewrite (Permutation_length (sort_desc_perm _)).
Qed.

(** X14. A whole number of seconds [k] with 10^9 < k <= 10^12 and the
    same instant written in milliseconds, [1000 * k], give the same
    result. *)
Theorem seconds_and_milliseconds_agree (k : Z) :
  (1000000000 < k <= 1000000000000)%Z ->
  instant (PInt (1000 * k)) = instant (PInt k).
Proof.
  intros [Hlo Hhi].
  unfold instant, normalized, to_datetime, seconds_of, exceeds_threshold, truthy.
  replace (1000 * k =? 0)%Z with false by (symmetry; apply Z.eqb_neq; lia).
  replace (k =? 0)%Z with false by (symmetry; apply Z.eqb_neq; lia).
  cbn [negb].
  replace (Qle_bool (inject_Z (1000 * k)) (inject_Z 1000000000000)) with false.
  - replace (Qle_bool (inject_Z k) (inject_Z 1000000000000)) with true.
    + cbn [negb]. do 2 f_equal.
      rewrite (Qred_complete _ (inject_Z k)).
      * apply Qred_inject_Z.
      * rewrite inject_Z_mult. field.
    + symmetry. apply Qle_bool_iff. now rewrite <- Zle_Qle.
  - symmetry. apply not_true_is_false. intro H. apply Qle_bool_iff in H.
    rewrite <- Zle_Qle in H. lia.
Qed.

End TimelineFurther.

Example record_event_of_call :
  record_event UtcClock.fromtimestamp UtcClock.fromisoformat UtcClock.float_str
    "Call Log" "calls"
    [("number", PStr "555"); ("date", PInt 1700000000000)]
  = Some (naive 1700000000000000, "Call: Unknown - 555", "Call Log").
Proof. reflexivity. Qed.

Lemma timeline_sound_witness :
  exists db_name info r,
    In (db_name, info) (Dict.items tie_store)
    /\ In r (firstn 100 (data info))
    /\ record_event UtcClock.fromtimestamp UtcClock.fromisoformat UtcClock.float_str
         db_name (type info) r
       = Some (naive 1699999999000000, "Calendar: Launch", "Calendar").
Proof.
  apply (timeline_sound UtcClock.fromtimestamp UtcClock.fromisoformat
           UtcClock.float_str tie_store).
  vm_compute. tauto.
Defined.

Lemma seconds_and_milliseconds_agree_witness :
  normalized UtcClock.fromtimestamp UtcClock.fromisoformat UtcClock.float_str
    (PInt 1000000001000)
  = normalized UtcClock.fromtimestamp UtcClock.fromisoformat UtcClock.float_str
      (PInt 1000000001).
Proof.
  apply (seconds_and_milliseconds_agree UtcClock.fromtimestamp UtcClock.fromisoformat
           UtcClock.float_str 1000000001).
  lia.
Defined.

Example threshold_reads_early_milliseconds_as_seconds :
  normalized UtcClock.fromtimestamp UtcClock.fromisoformat UtcClock.float_str
    (PInt 999999999000)
  = option_map naive (UtcClock.fromtimestamp (inject_Z 999999999000)).
Proof. reflexivity. Qed.

Lemma timeline_keeps_latest_witness :
  List.length (collect_events UtcClock.fromtimestamp UtcClock.fromisoformat
                 UtcClock.float_str crowded_store) = 270%nat
  /\ exists shown dropped,
       update_timeline UtcClock.fromtimestamp UtcClock.fromisoformat
         UtcClock.float_str crowded_store = Ok shown
       /\ List.length shown = 200%nat
       /\ Permutation (shown ++ dropped)
            (collect_events UtcClock.fromtimestamp UtcClock.fromisoformat
               UtcClock.float_str crowded_store).
Proof.
  split; [vm_compute; reflexivity |].
  eexists.
  destruct (timeline_keeps_latest UtcClock.fromtimestamp UtcClock.fromisoformat
              UtcClock.float_str crowded_store _ eq_refl) as [dropped [Hp _]].
  exists dropped. split; [reflexivity | split; [vm_compute; reflexivity | exact Hp]].
Defined.

(** X15. In every state of the application the store has one entry per
    display name, and each entry's count is the number of its records. *)
Theorem store_invariant (a : app) :
  reachable a ->
  NoDup (Dict.keys (loaded_databases a))
  /\ forall name info,
       Dict.get name (loaded_databases a) = Some info ->
       count info = List.length (data info).
Proof. apply reachable_store. Qed.

Lemma store_invariant_witness :
  NoDup (Dict.keys (loaded_databases app_with_calls)).
Proof.
  apply (store_invariant app_with_calls).
  apply reachable_step, reachable_initial.
Defined.

(** ** Export, further *)

(** X16. Export refuses exactly when nothing is loaded or no file was
    chosen; otherwise, in any state of the application, the exported
    datasets are those of the store in the store's order, each with its
    type, its count and its first 500 records. *)
Theorem export_in_store_order (a : app) (file_path now : string) :
  (export_data a file_path now = None
   <-> loaded_databases a = [] \/ file_path = "")
  /\ (reachable a ->
      forall f, export_data a file_path now = Some f ->
        export_date f = now
        /\ databases f
           = map (fun item => (fst item, entry_of (snd item))) (loaded_databases a)).
Proof.
  unfold export_data. split.
  - destruct (loaded_databases a) as [| item rest]; cbn [nonempty].
    + split; [now left | reflexivity].
    + destruct (String.eqb_spec file_path "") as [-> | Hne]; cbn [negb].
      * split; [now right | reflexivity].
      * split; [discriminate | intros [H | H]; [discriminate | now destruct Hne]].
  - intros Ha f. apply reachable_store in Ha as [Hk _].
    destruct (nonempty (loaded_databases a)); [| discriminate].
    destruct (negb (String.eqb file_path "")); [| discriminate].
    intro H; injection H as <-. cbn [export_date databases].
    split; [reflexivity | now apply export_databases_map].
Qed.

Lemma export_in_store_order_witness :
  exists f,
    export_data app_with_calls "export.json" "2026-01-01T00:00:00" = Some f
    /\ Dict.keys (databases f) = ["Call Log"].
Proof.
  destruct (export_in_store_order app_with_calls "export.json" "2026-01-01T00:00:00")
    as [_ Hsome].
  eexists. split; [reflexivity |].
  destruct (Hsome (reachable_step _ _ reachable_initial) _ eq_refl) as [_ Hd].
  rewrite Hd. reflexivity.
Defined.

(** ** The data table *)

Section DataTableProperties.

Variable title : string -> string.
Variable float_str : Q -> string.

Let update := update_data_table title float_str.

(** X17. The data table shows [min 1000 (len data)] rows. With data,
    its columns are the fields of the first record, each with a
    heading, and the row of the [i]-th record (for [i] below 1000) has
    one cell per column: under column [col] the text of the record's
    value for [col], and the empty text when the record lacks [col].
    With no data the rows go and the columns of the previous dataset
    stay. Showing the same data twice changes nothing. *)
Theorem data_table_shape (tree : treeview) (data : list record) :
  List.length (rows (update tree data)) = Nat.min 1000 (List.length data)
  /\ (forall first rest, data = first :: rest ->
        columns (update tree data) = Dict.keys first
        /\ map fst (headings (update tree data)) = Dict.keys first
        /\ forall i item,
             nth_error data i = Some item -> (i < 1000)%nat ->
             exists cells,
               nth_error (rows (update tree data)) i = Some cells
               /\ List.length cells = List.length (Dict.keys first)
               /\ forall j col,
                    nth_error (Dict.keys first) j = Some col ->
                    nth_error cells j
                    = Some match Dict.get col item with
                           | Some v => py_str float_str v
                           | None => ""
                           end)
  /\ (data = [] ->
      columns (update tree data) = columns tree /\ rows (update tree data) = [])
  /\ update (update tree data) data = update tree data.
Proof.
  unfold update, update_data_table.
  split; [| split; [| split]].
  - destruct data as [| first rest]; cbn [rows]; [reflexivity |].
    now rewrite length_map, length_firstn.
  - intros first rest ->. cbn [columns headings rows].
    split; [reflexivity | split].
    + rewrite map_map. cbn [fst]. apply map_id.
    + intros i item Hi Hlt.
      eexists. split; [| split].
      * rewrite nth_error_map, nth_error_firstn.
        apply Nat.ltb_lt in Hlt. rewrite Hlt, Hi. reflexivity.
      * now rewrite length_map.
      * intros j col Hj. rewrite nth_error_map, Hj. reflexivity.
  - intros ->. split; reflexivity.
  - destruct data as [| first rest]; reflexivity.
Qed.

End DataTableProperties.

Lemma data_table_shape_witness :
  exists cells,
    nth_error (rows (update_data_table (fun s => s) UtcClock.float_str empty_tree
                       mixed_records)) 1 = Some cells
    /\ nth_error cells 0 = Some "Alan"
    /\ nth_error cells 1 = Some "".
Proof.
  destruct (data_table_shape (fun s => s) UtcClock.float_str empty_tree mixed_records)
    as [_ [Hcols _]].
  destruct (Hcols _ _ eq_refl) as [_ [_ Hrows]].
  destruct (Hrows 1%nat _ eq_refl) as [cells [Hc [_ Hcell]]]; [lia |].
  exists cells. split; [exact Hc | split].
  - exact (Hcell 0%nat "first_name" eq_refl).
  - exact (Hcell 1%nat "age" eq_refl).
Defined.

Example empty_load_keeps_columns :
  let shown := update_data_table (fun s => s) UtcClock.float_str empty_tree mixed_records in
  update_data_table (fun s => s) UtcClock.float_str shown []
  = {| columns := ["first_name"; "age"];
       headings := [("first_name", "first name"); ("age", "age")];
       rows := [] |}.
Proof. reflexivity. Qed.
